(** * A shallow embedding of [src/shop.rs] (super-auto-sim)

    The shop phase of the simulator: [Shop::step] and the primitives it
    calls.  Randomness is the [Dice] capability: the code is written as a
    program over a single effect, a roll request [Roll n k] for a value in
    [0, n), and a panic ([assert!], [unwrap], usize underflow or overflow,
    index out of range).  Programs are run against a dice source by [run], or against an
    explicit list of answers by [exec]. *)

From Stdlib Require Import List Arith Lia Bool PeanoNat NArith.
From Stdlib Require Import Sorting.Sorted Sorting.Permutation Sorting.Mergesort.
From Stdlib Require Import Structures.Orders.
Import ListNotations.

(* ------------------------------------------------------------------ *)
(** ** The roll effect *)

Inductive Panic :=
| PanicAssert          (** [assert!] failed *)
| PanicUnwrap          (** [Option::unwrap] on [None] *)
| PanicOverflow        (** usize subtraction below zero *)
| PanicAddOverflow     (** usize addition above [usize::MAX] *)
| PanicIndex           (** array index out of range *)
| PanicInvalidAction.  (** [panic!("Invalid ShopAction")] *)

Inductive prog (A : Type) : Type :=
| Ret (a : A)
| Fail (e : Panic)
| Roll (n : nat) (k : nat -> prog A).

Arguments Ret {A} a.
Arguments Fail {A} e.
Arguments Roll {A} n k.

Fixpoint bind {A B} (p : prog A) (f : A -> prog B) : prog B :=
  match p with
  | Ret a => f a
  | Fail e => Fail e
  | Roll n k => Roll n (fun r => bind (k r) f)
  end.

Notation "x <- c1 ;; c2" := (bind c1 (fun x => c2))
  (at level 61, c1 at next level, right associativity).
Notation "' pat <- c1 ;; c2" := (bind c1 (fun x => match x with pat => c2 end))
  (at level 61, pat pattern, c1 at next level, right associativity).
Notation "c1 ;; c2" := (bind c1 (fun _ : unit => c2))
  (at level 61, right associativity).

(** [rng.roll(0..n)] *)
Definition roll (n : nat) : prog nat := Roll n Ret.

Definition assert (b : bool) : prog unit :=
  if b then Ret tt else Fail PanicAssert.

Definition unwrap {A} (o : option A) : prog A :=
  match o with Some a => Ret a | None => Fail PanicUnwrap end.

(** usize [a - b] (debug build: panics below zero) *)
Definition checked_sub (a b : nat) : prog nat :=
  if b <=? a then Ret (a - b) else Fail PanicOverflow.

(** [usize::MAX] on a 64-bit target. *)
Definition USIZE_MAX : N := 18446744073709551615%N.

(** usize [a + b] (debug build: panics above [usize::MAX]) *)
Definition checked_add (a b : nat) : prog nat :=
  if (N.of_nat (a + b) <=? USIZE_MAX)%N then Ret (a + b) else Fail PanicAddOverflow.

(** [arr[i]] *)
Definition get {A} (l : list A) (i : nat) : prog A :=
  match nth_error l i with Some x => Ret x | None => Fail PanicIndex end.

Fixpoint replace_nth {A} (l : list A) (i : nat) (x : A) : option (list A) :=
  match l, i with
  | [], _ => None
  | _ :: t, 0 => Some (x :: t)
  | h :: t, S i' => option_map (cons h) (replace_nth t i' x)
  end.

(** [arr[i] = x] *)
Definition set {A} (l : list A) (i : nat) (x : A) : prog (list A) :=
  match replace_nth l i x with Some l' => Ret l' | None => Fail PanicIndex end.

(** [arr[i].take()] *)
Definition take {A} (l : list (option A)) (i : nat) : prog (option A * list (option A)) :=
  o <- get l i ;; l' <- set l i None ;; Ret (o, l').

(** [for x in xs { body }] threading a state *)
Fixpoint for_each {S X} (xs : list X) (body : X -> S -> prog S) (s : S) : prog S :=
  match xs with
  | [] => Ret s
  | x :: xs' => s' <- body x s ;; for_each xs' body s'
  end.

(* ------------------------------------------------------------------ *)
(** ** Running a program *)

(** The [Dice] trait: [roll] answers a request for a value in [0, n). *)
Class Dice (D : Type) := dice_roll : D -> nat -> nat * D.

(** Runs [p] against a dice source; the trace records each request and its
    answer.  A request on an empty range fails loudly, as does an answer
    outside the requested range. *)
Fixpoint run {D} `{Dice D} {A} (d : D) (p : prog A)
  : option A * list (nat * nat) * D :=
  match p with
  | Ret a => (Some a, [], d)
  | Fail _ => (None, [], d)
  | Roll n k =>
      if n =? 0 then (None, [], d) else
      let '(r, d') := dice_roll d n in
      if n <=? r then (None, [(n, r)], d') else
      let '(res, tr, d'') := run d' (k r) in (res, (n, r) :: tr, d'')
  end.

(** The answers of a dice source to a sequence of requests. *)
Fixpoint answers {D} `{Dice D} (d : D) (reqs : list nat) : list nat :=
  match reqs with
  | [] => []
  | n :: ns => let '(r, d') := dice_roll d n in r :: answers d' ns
  end.

(** Runs [p] on an explicit list of answers; returns the unused ones. *)
Fixpoint exec {A} (rs : list nat) (p : prog A) {struct p} : option (A * list nat) :=
  match p with
  | Ret a => Some (a, rs)
  | Fail _ => None
  | Roll n k =>
      match rs with
      | r :: rs' => if r <? n then exec rs' (k r) else None
      | [] => None
      end
  end.

(** The results [p] can return when every roll answers inside its range. *)
Inductive outcome {A} : prog A -> A -> Prop :=
| outcome_ret a : outcome (Ret a) a
| outcome_roll n k r a : r < n -> outcome (k r) a -> outcome (Roll n k) a.

(** Weakest precondition: every panic satisfies [E], every result [Q]. *)
Fixpoint wpe {A} (p : prog A) (E : Panic -> Prop) (Q : A -> Prop) : Prop :=
  match p with
  | Ret a => Q a
  | Fail e => E e
  | Roll n k => forall r, r < n -> wpe (k r) E Q
  end.

Definition wp {A} (p : prog A) (Q : A -> Prop) : Prop := wpe p (fun _ => True) Q.

(** Every roll the program can reach asks for a non-empty range. *)
Fixpoint rolls_nonempty {A} (p : prog A) : Prop :=
  match p with
  | Ret _ | Fail _ => True
  | Roll n k => 0 < n /\ forall r, r < n -> rolls_nonempty (k r)
  end.

(* ------------------------------------------------------------------ *)
(** ** Parameters, species, friends and food *)

(** Modelled from the spec: [params.rs] is not under src/; the spec fixes
    no values, these are the tier-1 sizes of the game. *)
Definition TEAM_SIZE := 5.
Definition SHOP_ANIMAL_COUNT := 3.
Definition SHOP_FOOD_COUNT := 1.
Definition DEFAULT_GOLD := 10.

(** Modelled from the spec: [species.rs] is not under src/.  [shop.rs]
    names Otter, Beaver, Duck and Pig and matches the rest with [_]; the
    others are the remaining tier-1 species.  The declaration order is the
    derived [Ord]. *)
Inductive Species := Ant | Beaver | Cricket | Duck | Fish | Horse | Mosquito | Otter | Pig.

Definition all_species := [Ant; Beaver; Cricket; Duck; Fish; Horse; Mosquito; Otter; Pig].

Definition species_index (s : Species) : nat :=
  match s with
  | Ant => 0 | Beaver => 1 | Cricket => 2 | Duck => 3 | Fish => 4
  | Horse => 5 | Mosquito => 6 | Otter => 7 | Pig => 8
  end.

Definition species_eqb (a b : Species) : bool := species_index a =? species_index b.

Lemma species_eqb_eq a b : species_eqb a b = true <-> a = b.
Proof.
  unfold species_eqb; rewrite Nat.eqb_eq; split; [|intros ->; reflexivity].
  destruct a, b; simpl; congruence.
Qed.

(** [Species::sample] *)
Definition species_sample : prog Species :=
  r <- roll (length all_species) ;; unwrap (nth_error all_species r).

Inductive Modifier := Honey_modifier.

(** Modelled from the spec: [friend.rs] is not under src/.  The fields the
    spec lists, in its order; the derived [Ord] compares them
    lexicographically. *)
Record Friend := mkFriend {
  species : Species;
  health : nat;
  attack : nat;
  exp : nat;
  modifier : option Modifier
}.

(** Modelled from the spec: the per-species default stats of [Friend::new]
    (tier-1 values of the game). *)
Definition base_stats (s : Species) : nat * nat :=  (* (health, attack) *)
  match s with
  | Ant => (1, 2) | Beaver => (2, 2) | Cricket => (2, 1) | Duck => (3, 1)
  | Fish => (2, 2) | Horse => (1, 2) | Mosquito => (2, 2) | Otter => (2, 1)
  | Pig => (1, 3)
  end.

(** [Friend::new] *)
Definition friend_new (s : Species) : Friend :=
  mkFriend s (fst (base_stats s)) (snd (base_stats s)) 0 None.

(** Modelled from the spec: [Friend::level], derived from the experience
    counter (levels 1, 2, 3 at 0, 2 and 5 experience). *)
Definition level (f : Friend) : nat :=
  if exp f <? 2 then 1 else if exp f <? 5 then 2 else 3.

(** Modelled from the spec: [food.rs] is not under src/; [buy_food] matches
    exactly [Apple] and [Honey]. *)
Inductive Food := Apple | Honey.

(** [Food::sample] *)
Definition food_sample : prog Food :=
  r <- roll 2 ;; unwrap (nth_error [Apple; Honey] r).

(** The derived [Ord] of [Friend]. *)
Definition modifier_index (m : option Modifier) : nat :=
  match m with None => 0 | Some Honey_modifier => 1 end.

Definition friend_cmp (a b : Friend) : comparison :=
  match Nat.compare (species_index (species a)) (species_index (species b)) with
  | Eq =>
    match Nat.compare (health a) (health b) with
    | Eq =>
      match Nat.compare (attack a) (attack b) with
      | Eq =>
        match Nat.compare (exp a) (exp b) with
        | Eq => Nat.compare (modifier_index (modifier a)) (modifier_index (modifier b))
        | c => c
        end
      | c => c
      end
    | c => c
    end
  | c => c
  end.

Lemma friend_cmp_sym a b : friend_cmp b a = CompOpp (friend_cmp a b).
Proof.
  unfold friend_cmp.
  rewrite (Nat.compare_antisym (species_index (species a))),
          (Nat.compare_antisym (health a)), (Nat.compare_antisym (attack a)),
          (Nat.compare_antisym (exp a)),
          (Nat.compare_antisym (modifier_index (modifier a))).
  destruct (species_index (species a) ?= species_index (species b)); simpl; auto.
  destruct (health a ?= health b); simpl; auto.
  destruct (attack a ?= attack b); simpl; auto.
  destruct (exp a ?= exp b); simpl; auto.
Qed.

(** The derived [Ord] of [Option<T>]: [None] first. *)
Definition option_leb {A} (cmp : A -> A -> comparison) (x y : option A) : bool :=
  match x, y with
  | None, _ => true
  | Some _, None => false
  | Some a, Some b => match cmp a b with Gt => false | _ => true end
  end.

Definition food_cmp (a b : Food) : comparison :=
  match a, b with
  | Apple, Honey => Lt
  | Honey, Apple => Gt
  | _, _ => Eq
  end.

Lemma friend_slot_leb_total (x y : option Friend) :
  option_leb friend_cmp x y = true \/ option_leb friend_cmp y x = true.
Proof.
  destruct x as [a|], y as [b|]; simpl; auto.
  rewrite (friend_cmp_sym a b); destruct (friend_cmp a b); simpl; auto.
Qed.

Lemma food_slot_leb_total (x y : option Food) :
  option_leb food_cmp x y = true \/ option_leb food_cmp y x = true.
Proof. destruct x as [[]|], y as [[]|]; simpl; auto. Qed.

(** The slot orders, packaged for the Standard Library's merge sort. *)
Module FriendSlotOrd <: TotalLeBool'.
Definition t := option Friend.
Definition leb := option_leb friend_cmp.
Definition leb_total := friend_slot_leb_total.
End FriendSlotOrd.

Module FoodSlotOrd <: TotalLeBool'.
Definition t := option Food.
Definition leb := option_leb food_cmp.
Definition leb_total := food_slot_leb_total.
End FoodSlotOrd.

(** [slice::sort] (a stable merge sort) on the two offer arrays. *)
Module FriendSort := Sort FriendSlotOrd.
Module FoodSort := Sort FoodSlotOrd.

Definition sort_friends := FriendSort.sort.
Definition sort_foods := FoodSort.sort.

(* ------------------------------------------------------------------ *)
(** ** Slots, the team and the dice helpers *)

Definition is_some {A} (o : option A) : bool :=
  match o with Some _ => true | None => false end.

(** Indices of the occupied entries of an array of optional values. *)
Definition occupied {A} (l : list (option A)) : list nat :=
  filter (fun i => is_some (nth i l None)) (seq 0 (length l)).

(** Modelled from the spec: [dice::pick_one] is not under src/.  "returns a
    uniformly random index among occupied entries, or none if all are
    empty". *)
Definition pick_one {A} (l : list (option A)) : prog (option nat) :=
  match occupied l with
  | [] => Ret None
  | idx => r <- roll (length idx) ;; Ret (nth_error idx r)
  end.

(** The team: [TEAM_SIZE] optional slots. *)
Definition Team := list (option Friend).

(** [Team::new] *)
Definition team_new : Team := repeat None TEAM_SIZE.

(** Modelled from the spec: [Team::random_friend] is not under src/; a
    uniform pick among the occupied slots. *)
Definition team_random_friend (t : Team) : prog (option nat) := pick_one t.

(** Draws up to [k] distinct members of [pool], one roll each. *)
Fixpoint sample_distinct (k : nat) (pool : list nat) : prog (list nat) :=
  match k with
  | 0 => Ret []
  | S k' =>
    match pool with
    | [] => Ret []
    | _ =>
      r <- roll (length pool) ;;
      i <- unwrap (nth_error pool r) ;;
      rest <- sample_distinct k' (filter (fun x => negb (x =? i)) pool) ;;
      Ret (i :: rest)
    end
  end.

(** Modelled from the spec: [Team::random_friends] is not under src/;
    "sample k distinct occupied slot indices uniformly without
    replacement". *)
Definition team_random_friends (t : Team) (k : nat) : prog (list nat) :=
  sample_distinct k (occupied t).

(** The first empty slot at or after [j]. *)
Definition first_empty_from (t : Team) (j : nat) : option nat :=
  find (fun p => negb (is_some (nth p t None))) (seq j (length t - j)).

(** Modelled from the spec: [Team::make_space_at] is not under src/.  The
    spec's "find first empty slot at-or-after index": when there is one, the
    friends from [j] up to it move one slot right and slot [j] is left empty;
    when there is none, no space can be made and the team is left as it is. *)
Definition make_space_at (t : Team) (j : nat) : bool * Team :=
  match first_empty_from t j with
  | None => (false, t)
  | Some k =>
    (true, map (fun p => if p <? j then nth p t None
                         else if p =? j then None
                         else if p <=? k then nth (p - 1) t None
                         else nth p t None) (seq 0 (length t)))
  end.

(** Modelled from the spec: [Team::summon] is not under src/; puts the
    friend in the (empty) slot. *)
Definition summon (t : Team) (f : Friend) (pos : nat) : prog Team :=
  set t pos (Some f).

(* ------------------------------------------------------------------ *)
(** ** The shop *)

Record Shop := mkShop {
  team : Team;
  gold : nat;
  shop_friends : list (option Friend);
  shop_foods : list (option Food)
}.

Definition set_team (s : Shop) (t : Team) : Shop :=
  mkShop t (gold s) (shop_friends s) (shop_foods s).
Definition set_gold (s : Shop) (g : nat) : Shop :=
  mkShop (team s) g (shop_friends s) (shop_foods s).
Definition set_shop_friends (s : Shop) (l : list (option Friend)) : Shop :=
  mkShop (team s) (gold s) l (shop_foods s).
Definition set_shop_foods (s : Shop) (l : list (option Food)) : Shop :=
  mkShop (team s) (gold s) (shop_friends s) l.

Inductive ShopAction :=
| BuyFriend | BuyCombineFriend | SellFriend | BuyFood | CombineFriends | Reroll.

(** [ShopAction::sample] *)
Definition action_sample : prog ShopAction :=
  r <- roll 6 ;;
  match r with
  | 0 => Ret BuyFriend
  | 1 => Ret BuyCombineFriend
  | 2 => Ret SellFriend
  | 3 => Ret BuyFood
  | 4 => Ret CombineFriends
  | 5 => Ret Reroll
  | _ => Fail PanicInvalidAction
  end.

Fixpoint map_m {A B} (f : A -> prog B) (l : list A) : prog (list B) :=
  match l with
  | [] => Ret []
  | x :: xs => y <- f x ;; ys <- map_m f xs ;; Ret (y :: ys)
  end.

(** [Shop::reroll] *)
Definition reroll (s : Shop) : prog Shop :=
  fr <- map_m (fun _ => sp <- species_sample ;; Ret (Some (friend_new sp)))
              (shop_friends s) ;;
  fo <- map_m (fun _ => f <- food_sample ;; Ret (Some f)) (shop_foods s) ;;
  Ret (mkShop (team s) (gold s) (sort_friends fr) (sort_foods fo)).

(** [Shop::new] *)
Definition shop_new : prog Shop :=
  reroll (mkShop team_new DEFAULT_GOLD (repeat None SHOP_ANIMAL_COUNT)
                 (repeat None SHOP_FOOD_COUNT)).

(** [Shop::random_friend], [Shop::random_food] *)
Definition random_friend (s : Shop) : prog (option nat) := pick_one (shop_friends s).
Definition random_food (s : Shop) : prog (option nat) := pick_one (shop_foods s).

(** The stat changes of the code. *)
Definition add_health (d : nat) (f : Friend) : Friend :=
  mkFriend (species f) (health f + d) (attack f) (exp f) (modifier f).
Definition buff (f : Friend) : Friend :=
  mkFriend (species f) (health f + 1) (attack f + 1) (exp f) (modifier f).

(** The survivor [f] of [combine_friends] after absorbing [g]. *)
Definition combine (f g : Friend) : Friend :=
  mkFriend (species f) (Nat.max (health f) (health g) + 1)
           (Nat.max (attack f) (attack g) + 1) (exp f + 1) (modifier f).

(** [Shop::on_buy]: the friend is not in the team. *)
Definition on_buy (s : Shop) (f : Friend) : prog Shop :=
  match species f with
  | Otter =>
    idx <- team_random_friends (team s) 1 ;;
    for_each idx (fun i s' =>
      slot <- get (team s') i ;;
      g <- unwrap slot ;;
      t <- set (team s') i (Some (buff g)) ;;
      Ret (set_team s' t)) s
  | _ => Ret s
  end.

(** [Shop::on_sell]: the friend has been removed from the team. *)
Definition on_sell (s : Shop) (a : Friend) : prog Shop :=
  match species a with
  | Beaver =>
    let delta := level a in
    idx <- team_random_friends (team s) 2 ;;
    for_each idx (fun i s' =>
      slot <- get (team s') i ;;
      f <- unwrap slot ;;
      t <- set (team s') i (Some (add_health delta f)) ;;
      Ret (set_team s' t)) s
  | Duck =>
    let delta := level a in
    Ret (set_shop_friends s (map (option_map (add_health delta)) (shop_friends s)))
  | Pig =>
    let delta := level a in
    g <- checked_add (gold s) delta ;;
    Ret (set_gold s g)
  | _ => Ret s
  end.

(** [Shop::on_sold]: no tier-1 friend reacts. *)
Definition on_sold (s : Shop) (_i : nat) : prog Shop := Ret s.

(** [Shop::buy_friend] *)
Definition buy_friend (s : Shop) (shop_pos team_pos : nat) : prog Shop :=
  assert (3 <=? gold s) ;;
  slot <- get (team s) team_pos ;;
  assert (negb (is_some slot)) ;;
  g <- checked_sub (gold s) 3 ;;
  '(o, sf) <- take (shop_friends s) shop_pos ;;
  friend <- unwrap o ;;
  s1 <- on_buy (mkShop (team s) g (sort_friends sf) (shop_foods s)) friend ;;
  t <- summon (team s1) friend team_pos ;;
  Ret (set_team s1 t).

(** [Shop::combine_friends] *)
Definition combine_friends (s : Shop) (team_pos : nat) (g : Friend) : prog Shop :=
  slot <- get (team s) team_pos ;;
  f <- unwrap slot ;;
  assert (species_eqb (species f) (species g)) ;;
  t <- set (team s) team_pos (Some (combine f g)) ;;
  Ret (set_team s t).

(** [Shop::sell_friend] *)
Definition sell_friend (s : Shop) (team_pos : nat) : prog Shop :=
  slot <- get (team s) team_pos ;;
  assert (is_some slot) ;;
  '(o, t) <- take (team s) team_pos ;;
  a <- unwrap o ;;
  g <- checked_add (gold s) (level a) ;;
  s1 <- on_sell (mkShop t g (shop_friends s) (shop_foods s)) a ;;
  for_each (seq 0 TEAM_SIZE) (fun i s' =>
    slot_i <- get (team s') i ;;
    if negb (i =? team_pos) && is_some slot_i then on_sold s' i else Ret s') s1.

(** The food's effect on the fed friend. *)
Definition feed (food : Food) (f : Friend) : Friend :=
  match food with
  | Apple => mkFriend (species f) (health f + 1) (attack f + 1) (exp f) (modifier f)
  | Honey => mkFriend (species f) (health f) (attack f) (exp f) (Some Honey_modifier)
  end.

(** [Shop::buy_food] *)
Definition buy_food (s : Shop) (shop_pos team_pos : nat) : prog Shop :=
  fslot <- get (shop_foods s) shop_pos ;;
  assert (is_some fslot) ;;
  tslot <- get (team s) team_pos ;;
  assert (is_some tslot) ;;
  friend <- unwrap tslot ;;
  '(o, fo) <- take (shop_foods s) shop_pos ;;
  food <- unwrap o ;;
  g <- checked_sub (gold s) 3 ;;
  t <- set (team s) team_pos (Some (feed food friend)) ;;
  Ret (mkShop t g (shop_friends s) (sort_foods fo)).

(** [iter().enumerate()] *)
Definition enumerate {A} (l : list A) : list (nat * A) := List.combine (seq 0 (length l)) l.

(** [iter().filter(|b| **b).count()] *)
Definition count_true (l : list bool) : nat := length (filter (fun b : bool => b) l).

Definition same_species (a b : option Friend) : bool :=
  match a, b with
  | Some f, Some g => species_eqb (species f) (species g)
  | _, _ => false
  end.

(** CombineFriends: the loop visits the pairs [i < j] of same-species
    occupied slots and marks [targets[i][j]] and [targets[j][i]]. *)
Definition pair_ok (t : Team) (i j : nat) : bool :=
  (i <? j) && same_species (nth i t None) (nth j t None).

Definition targets (t : Team) (i j : nat) : bool := pair_ok t i j || pair_ok t j i.

Definition targets_row (t : Team) (i : nat) : list bool :=
  map (targets t i) (seq 0 TEAM_SIZE).

Definition has_targets (t : Team) : list bool :=
  map (fun i => existsb (targets t i) (seq 0 TEAM_SIZE)) (seq 0 TEAM_SIZE).

(** BuyCombineFriend: [targets[i][j]] for shop slot [i] and team slot [j]. *)
Definition shop_target (s : Shop) (i j : nat) : bool :=
  same_species (nth i (shop_friends s) None) (nth j (team s) None).

Definition shop_targets_row (s : Shop) (i : nat) : list bool :=
  map (shop_target s i) (seq 0 TEAM_SIZE).

Definition shop_has_targets (s : Shop) : list bool :=
  map (fun i => existsb (shop_target s i) (seq 0 TEAM_SIZE)) (seq 0 SHOP_ANIMAL_COUNT).

(** The body of [Shop::step] once the action is drawn. *)
Definition step_action (act : ShopAction) (s : Shop) : prog (bool * Shop) :=
  match act with
  | BuyFriend =>
    if gold s <? 3 then Ret (true, s) else
    oi <- random_friend s ;;
    match oi with
    | None => Ret (true, s)
    | Some i =>
      slot <- get (shop_friends s) i ;;
      _a <- unwrap slot ;;
      j <- roll TEAM_SIZE ;;
      let '(ok, t) := make_space_at (team s) j in
      if ok then s' <- buy_friend (set_team s t) i j ;; Ret (false, s')
      else Ret (true, set_team s t)
    end
  | BuyFood =>
    if gold s <? 3 then Ret (true, s) else
    oi <- random_food s ;;
    match oi with
    | None => Ret (true, s)
    | Some i =>
      oj <- team_random_friend (team s) ;;
      match oj with
      | None => Ret (true, s)
      | Some j => s' <- buy_food s i j ;; Ret (false, s')
      end
    end
  | SellFriend =>
    oj <- team_random_friend (team s) ;;
    match oj with
    | Some j => s' <- sell_friend s j ;; Ret (false, s')
    | None => Ret (true, s)
    end
  | Reroll =>
    if gold s =? 0 then Ret (true, s)
    else if existsb (fun o => negb (is_some o)) (shop_foods s)
            || existsb (fun o => negb (is_some o)) (shop_friends s) then
      s1 <- reroll s ;;
      g <- checked_sub (gold s1) 1 ;;
      Ret (false, set_gold s1 g)
    else Ret (true, s)
  | CombineFriends =>
    let has := has_targets (team s) in
    r <- roll (count_true has) ;;
    match nth_error (filter snd (enumerate has)) r with
    | Some (i, b) =>
      assert b ;;
      let row := targets_row (team s) i in
      r2 <- roll (count_true row) ;;
      '(j, b2) <- unwrap (nth_error (filter snd (enumerate row)) r2) ;;
      assert b2 ;;
      '(o, t) <- take (team s) i ;;
      friend <- unwrap o ;;
      s' <- combine_friends (set_team s t) j friend ;;
      Ret (false, s')
    | None => Ret (true, s)
    end
  | BuyCombineFriend =>
    if gold s <? 3 then Ret (true, s) else
    let has := shop_has_targets s in
    r <- roll (count_true has) ;;
    match nth_error (filter snd (enumerate has)) r with
    | None => Ret (true, s)
    | Some (i, b) =>
      assert b ;;
      let row := shop_targets_row s i in
      r2 <- roll (count_true row) ;;
      '(j, b2) <- unwrap (nth_error (filter snd (enumerate row)) r2) ;;
      assert b2 ;;
      '(o, sf) <- take (shop_friends s) i ;;
      friend <- unwrap o ;;
      g <- checked_sub (gold s) 3 ;;
      s1 <- combine_friends (mkShop (team s) g (sort_friends sf) (shop_foods s)) j friend ;;
      '(o2, t2) <- take (team s1) j ;;
      merged <- unwrap o2 ;;
      s2 <- on_buy (set_team s1 t2) merged ;;
      t3 <- set (team s2) j (Some merged) ;;
      Ret (false, set_team s2 t3)
    end
  end.

(** [Shop::step] *)
Definition step (s : Shop) : prog (bool * Shop) :=
  act <- action_sample ;; step_action act s.

(** The driver: calls [step] until it signals the end of the round, at most
    [fuel] times; records the action drawn and the signal of each call. *)
Fixpoint run_steps (fuel : nat) (s : Shop) : prog (list (ShopAction * bool) * Shop) :=
  match fuel with
  | 0 => Ret ([], s)
  | S fuel' =>
    act <- action_sample ;;
    '(done, s1) <- step_action act s ;;
    if done then Ret ([(act, done)], s1)
    else '(tr, s2) <- run_steps fuel' s1 ;; Ret ((act, done) :: tr, s2)
  end.

(* ------------------------------------------------------------------ *)
(** ** Reasoning about programs *)

Lemma wpe_bind {A B} (p : prog A) (f : A -> prog B) E Q :
  wpe (bind p f) E Q <-> wpe p E (fun a => wpe (f a) E Q).
Proof.
  induction p as [a|e|n k IH]; simpl; try tauto.
  split; intros H r Hr; apply IH; auto.
Qed.

Lemma wpe_mono {A} (p : prog A) (E E' : Panic -> Prop) (Q Q' : A -> Prop) :
  wpe p E Q -> (forall e, E e -> E' e) -> (forall a, Q a -> Q' a) -> wpe p E' Q'.
Proof. induction p; simpl; eauto. Qed.

Lemma wpe_bind_intro {A B} (p : prog A) (f : A -> prog B) E E' Q P :
  wpe p E' P -> (forall e, E' e -> E e) -> (forall a, P a -> wpe (f a) E Q) ->
  wpe (bind p f) E Q.
Proof. intros Hp HE Hf; apply wpe_bind; eapply wpe_mono; eauto. Qed.

Lemma wpe_seq {A B} (p : prog A) (f : A -> prog B) E Q P :
  wpe p E P -> (forall a, P a -> wpe (f a) E Q) -> wpe (bind p f) E Q.
Proof. intros Hp Hf; eapply wpe_bind_intro; eauto. Qed.

Lemma wpe_outcome {A} (p : prog A) E Q a : wpe p E Q -> outcome p a -> Q a.
Proof. intros Hw Ho; induction Ho; simpl in *; auto. Qed.

Lemma outcome_bind_inv {A B} (p : prog A) (f : A -> prog B) b :
  outcome (bind p f) b -> exists a, outcome p a /\ outcome (f a) b.
Proof.
  revert b; induction p as [a|e|n k IH]; simpl; intros b H.
  - exists a; split; [constructor | assumption].
  - inversion H.
  - inversion H as [|n' k' r a' Hr Hk]; subst.
    destruct (IH r b Hk) as (a & Ha & Hb).
    exists a; split; auto. econstructor; eauto.
Qed.

Lemma outcome_bind {A B} (p : prog A) (f : A -> prog B) a b :
  outcome p a -> outcome (f a) b -> outcome (bind p f) b.
Proof. induction 1; simpl; auto. intros; econstructor; eauto. Qed.

Lemma outcome_ret_inv {A} (a b : A) : outcome (Ret a) b -> a = b.
Proof. intros H; inversion H; auto. Qed.

Lemma outcome_fail_inv {A} e (b : A) : outcome (Fail e) b -> False.
Proof. intros H; inversion H. Qed.

Lemma outcome_roll_inv {A} n (k : nat -> prog A) b :
  outcome (Roll n k) b -> exists r, r < n /\ outcome (k r) b.
Proof. intros H; inversion H; subst; eauto. Qed.

Lemma exec_outcome {A} rs (p : prog A) a rest :
  exec rs p = Some (a, rest) -> outcome p a.
Proof.
  revert rs; induction p as [a'|e|n k IH]; intros rs H; simpl in H.
  - inversion H; subst; constructor.
  - discriminate.
  - destruct rs as [|r rs']; [discriminate|].
    destruct (r <? n) eqn:E; [|discriminate].
    apply Nat.ltb_lt in E; econstructor; eauto.
Qed.

Lemma wpe_for_each {S X} (xs : list X) (body : X -> S -> prog S) E (I : S -> Prop) s :
  (forall x st, I st -> wpe (body x st) E I) -> I s -> wpe (for_each xs body s) E I.
Proof.
  revert s; induction xs as [|x xs IH]; simpl; intros s Hb Hs; auto.
  eapply wpe_bind_intro; eauto.
Qed.

Lemma wpe_map_m {A B} (f : A -> prog B) (l : list A) E (P : B -> Prop) :
  (forall x, wpe (f x) E P) ->
  wpe (map_m f l) E (fun ys => length ys = length l /\ Forall P ys).
Proof.
  intros Hf; induction l as [|x l IH]; simpl; auto.
  eapply wpe_bind_intro; [apply Hf| auto |]; intros y Hy.
  eapply wpe_bind_intro; [apply IH| auto |]; intros ys [Hl Hys]; simpl; auto.
Qed.

(** The panics a program may raise besides a usize underflow. *)
Definition NoOverflow (e : Panic) : Prop := e <> PanicOverflow.


(* ------------------------------------------------------------------ *)
(** ** Specifications of the helpers *)

Lemma occupied_spec {A} (l : list (option A)) i :
  In i (occupied l) <-> i < length l /\ is_some (nth i l None) = true.
Proof.
  unfold occupied; rewrite filter_In, in_seq; split; intros [H1 H2]; split; auto; lia.
Qed.

Lemma occupied_nth {A} (l : list (option A)) i :
  In i (occupied l) -> exists x, nth_error l i = Some (Some x).
Proof.
  intros H; apply occupied_spec in H as [Hlt Hs].
  rewrite (nth_error_nth' l None Hlt).
  destruct (nth i l None); [eauto | discriminate].
Qed.

Lemma nth_error_in_range {A} (l : list A) r :
  r < length l -> exists x, nth_error l r = Some x /\ In x l.
Proof.
  intros H; destruct (nth_error l r) eqn:E.
  - eauto using nth_error_In.
  - apply nth_error_None in E; lia.
Qed.

(** [pick_one] never panics and returns an occupied index. *)
Lemma pick_one_wp {A} (l : list (option A)) E :
  wpe (pick_one l) E (fun o => match o with
                               | Some i => In i (occupied l)
                               | None => occupied l = []
                               end).
Proof.
  unfold pick_one; destruct (occupied l) as [|i0 idx] eqn:Eo; [simpl; auto|].
  unfold roll; cbn [wpe bind]; intros r Hr; rewrite <- Eo in *.
  destruct (nth_error_in_range (occupied l) r) as (x & Ex & Hx); [assumption|].
  rewrite Ex; exact Hx.
Qed.

Lemma sample_distinct_wp k pool E :
  wpe (sample_distinct k pool) E (fun idx => incl idx pool).
Proof.
  revert pool; induction k as [|k IH]; intros pool; simpl.
  - intros x [].
  - destruct pool as [|p0 ps]; [intros x []|].
    intros r Hr.
    destruct (nth_error_in_range (p0 :: ps) r) as (i & Ei & Hi); [simpl in *; lia|].
    change (wpe (bind (unwrap (nth_error (p0 :: ps) r)) (fun i =>
      bind (sample_distinct k (filter (fun x => negb (x =? i)) (p0 :: ps)))
           (fun rest => Ret (i :: rest)))) E (fun idx => incl idx (p0 :: ps))).
    rewrite Ei; cbn [unwrap bind].
    eapply wpe_bind_intro; [apply IH| auto |]; intros rest Hrest; cbn [wpe].
    intros x [<-|Hx]; auto.
    apply Hrest, filter_In in Hx; tauto.
Qed.

Lemma team_random_friends_wp t k E :
  wpe (team_random_friends t k) E (fun idx => incl idx (occupied t)).
Proof. apply sample_distinct_wp. Qed.

Lemma team_random_friend_wp t E :
  wpe (team_random_friend t) E (fun o => match o with
                                         | Some i => In i (occupied t)
                                         | None => occupied t = []
                                         end).
Proof. apply pick_one_wp. Qed.

Lemma map_m_roll_wp {A B} (f : A -> prog B) (l : list A) (P : B -> Prop) :
  (forall x, wpe (f x) NoOverflow P) ->
  wpe (map_m f l) NoOverflow (fun ys => length ys = length l /\ Forall P ys).
Proof. apply wpe_map_m. Qed.

Lemma species_sample_wp : wpe species_sample NoOverflow (fun _ => True).
Proof.
  unfold species_sample, roll; simpl; intros r Hr.
  destruct (nth_error all_species r); simpl; auto; discriminate.
Qed.

Lemma food_sample_wp : wpe food_sample NoOverflow (fun _ => True).
Proof.
  unfold food_sample, roll; simpl; intros r Hr.
  destruct (nth_error [Apple; Honey] r); simpl; auto; discriminate.
Qed.

Definition Sorted_friends (l : list (option Friend)) : Prop :=
  Sorted (fun x y => FriendSlotOrd.leb x y = true) l.
Definition Sorted_foods (l : list (option Food)) : Prop :=
  Sorted (fun x y => FoodSlotOrd.leb x y = true) l.

(** The canonical order of both offer arrays. *)
Definition shop_sorted (s : Shop) : Prop :=
  Sorted_friends (shop_friends s) /\ Sorted_foods (shop_foods s).

Lemma sort_friends_sorted l : Sorted_friends (sort_friends l).
Proof. apply FriendSort.Sorted_sort. Qed.

Lemma sort_foods_sorted l : Sorted_foods (sort_foods l).
Proof. apply FoodSort.Sorted_sort. Qed.

Lemma reroll_wp s :
  wpe (reroll s) NoOverflow
    (fun s' => team s' = team s /\ gold s' = gold s /\ shop_sorted s').
Proof.
  unfold reroll.
  eapply wpe_bind_intro.
  { apply map_m_roll_wp with (P := fun _ => True); intros _.
    eapply wpe_bind_intro; [apply species_sample_wp | auto | simpl; auto]. }
  { auto. }
  intros fr _.
  eapply wpe_bind_intro.
  { apply map_m_roll_wp with (P := fun _ => True); intros _.
    eapply wpe_bind_intro; [apply food_sample_wp | auto | simpl; auto]. }
  { auto. }
  intros fo _; simpl.
  split; [|split]; auto.
  split; [apply sort_friends_sorted | apply sort_foods_sorted].
Qed.

Lemma replace_nth_spec {A} (l l' : list A) i x :
  replace_nth l i x = Some l' ->
  i < length l /\ length l' = length l /\
  (forall d, nth i l' d = x) /\ (forall p d, p <> i -> nth p l' d = nth p l d).
Proof.
  revert l' i; induction l as [|h t IH]; intros l' i H; simpl in H; [discriminate|].
  destruct i as [|i].
  - injection H as <-; simpl; repeat split; try lia; auto.
    intros [|p] d Hp; simpl; congruence.
  - destruct (replace_nth t i x) as [t'|] eqn:E; simpl in H; [|discriminate].
    injection H as <-. destruct (IH t' i E) as (H1 & H2 & H3 & H4).
    simpl; repeat split; try lia; auto.
    intros [|p] d Hp; simpl; auto.
Qed.

Lemma replace_nth_in_range {A} (l : list A) i x :
  i < length l -> exists l', replace_nth l i x = Some l'.
Proof.
  revert i; induction l as [|h t IH]; intros i H; simpl in *; [lia|].
  destruct i as [|i]; [eauto|].
  destruct (IH i) as [t' ->]; [lia|]; simpl; eauto.
Qed.

(** The team-side effect of a hook: the other fields stay, no slot is
    added, and an empty slot stays empty. *)
Definition team_hook_post (s s' : Shop) : Prop :=
  gold s' = gold s /\ shop_friends s' = shop_friends s /\
  shop_foods s' = shop_foods s /\ length (team s') = length (team s) /\
  (forall p, nth p (team s) None = None -> nth p (team s') None = None).

Lemma team_hook_post_refl s : team_hook_post s s.
Proof. unfold team_hook_post; repeat split; auto. Qed.

(** One step of a loop that changes the friend in occupied slot [i]. *)
Lemma update_slot_wp s st i (h : Friend -> Friend) :
  team_hook_post s st ->
  wpe (slot <- get (team st) i ;; g <- unwrap slot ;;
       t <- set (team st) i (Some (h g)) ;; Ret (set_team st t))
      NoOverflow (team_hook_post s).
Proof.
  intros (H1 & H2 & H3 & H4 & H5).
  unfold get; destruct (nth_error (team st) i) as [slot|] eqn:Eg; cbn [bind wpe];
    [|discriminate].
  destruct slot as [g|]; cbn [unwrap bind wpe]; [|discriminate].
  unfold set; destruct (replace_nth (team st) i (Some (h g))) as [t|] eqn:Es;
    cbn [bind wpe]; [|discriminate].
  apply replace_nth_spec in Es as (Hi & Hl & Hn & Ho).
  unfold team_hook_post, set_team; simpl; repeat split; try congruence.
  intros p Hp; destruct (Nat.eq_dec p i) as [->|Hne].
  - apply H5 in Hp. rewrite (nth_error_nth _ _ None Eg) in Hp. discriminate.
  - rewrite Ho; auto.
Qed.

Lemma on_buy_wp s f : wpe (on_buy s f) NoOverflow (team_hook_post s).
Proof.
  unfold on_buy; destruct (species f); try (simpl; apply team_hook_post_refl).
  eapply wpe_seq; [apply team_random_friends_wp |]; intros idx _.
  apply wpe_for_each; [|apply team_hook_post_refl].
  intros i st Hst; apply update_slot_wp; auto.
Qed.

Lemma add_compare_r n m d : (n + d ?= m + d) = (n ?= m).
Proof.
  destruct (Nat.compare_spec n m), (Nat.compare_spec (n + d) (m + d)); auto; lia.
Qed.

Lemma friend_cmp_add_health d a b :
  friend_cmp (add_health d a) (add_health d b) = friend_cmp a b.
Proof. unfold friend_cmp, add_health; simpl; rewrite add_compare_r; reflexivity. Qed.

Lemma Sorted_map_mono {A} (R : A -> A -> Prop) (g : A -> A) l :
  (forall x y, R x y -> R (g x) (g y)) -> Sorted R l -> Sorted R (map g l).
Proof.
  intros Hg HS; induction HS as [|x l HS IH Hd]; simpl; constructor; auto.
  destruct Hd; simpl; constructor; auto.
Qed.

(** The Duck's effect keeps the offer array in order. *)
Lemma duck_sorted d l :
  Sorted_friends l -> Sorted_friends (map (option_map (add_health d)) l).
Proof.
  apply Sorted_map_mono.
  intros [x|] [y|]; unfold FriendSlotOrd.leb; simpl; auto.
  rewrite friend_cmp_add_health; auto.
Qed.

Lemma on_sell_wp s a :
  wpe (on_sell s a) NoOverflow
    (fun s' => gold s <= gold s' /\ shop_foods s' = shop_foods s /\
               (Sorted_friends (shop_friends s) -> Sorted_friends (shop_friends s'))).
Proof.
  unfold on_sell; destruct (species a); simpl;
    try (split; [lia | split; auto using duck_sorted]).
  eapply wpe_seq; [apply team_random_friends_wp |]; intros idx _.
  eapply wpe_mono.
  - apply wpe_for_each; [|apply team_hook_post_refl].
    intros i st Hst; apply update_slot_wp; auto.
  - auto.
  - intros s' (H1 & H2 & H3 & _). rewrite H1, H2, H3; auto.
  - unfold checked_add; destruct (_ <=? _)%N; simpl;
      [split; [lia | auto] | unfold NoOverflow; discriminate].
Qed.

Lemma set_team_same s : set_team s (team s) = s.
Proof. destruct s; reflexivity. Qed.

(** [make_space_at] leaves the team as it is when it fails. *)
Lemma make_space_at_false t j t' : make_space_at t j = (false, t') -> t' = t.
Proof.
  unfold make_space_at; destruct (first_empty_from t j); intros H; inversion H; auto.
Qed.

Ltac wp_red :=
  unfold get, set, take, assert, unwrap, checked_sub, checked_add, roll, random_friend,
    random_food, team_random_friend, buy_friend, buy_food, sell_friend,
    combine_friends, on_sold, summon;
  cbn [wpe bind set_team set_gold set_shop_friends set_shop_foods gold team
       shop_friends shop_foods negb andb orb fst snd for_each].

Ltac bool_lia :=
  repeat match goal with
    | H : _ /\ _ |- _ => destruct H
    | H : (_ <? _) = true |- _ => apply Nat.ltb_lt in H
    | H : (_ <? _) = false |- _ => apply Nat.ltb_ge in H
    | H : (_ <=? _) = true |- _ => apply Nat.leb_le in H
    | H : (_ <=? _) = false |- _ => apply Nat.leb_gt in H
    | H : (_ =? _) = true |- _ => apply Nat.eqb_eq in H
    | H : (_ =? _) = false |- _ => apply Nat.eqb_neq in H
    end; lia.

Ltac wp_go :=
  repeat (wp_red;
    match goal with
    | |- forall _, _ => intro
    | |- wpe (bind (bind _ _) _) _ _ => rewrite wpe_bind
    | |- wpe (bind (on_buy _ _) _) _ _ =>
      eapply wpe_bind_intro; [apply on_buy_wp | solve [auto] |]
    | |- wpe (bind (on_sell _ _) _) _ _ =>
      eapply wpe_bind_intro; [apply on_sell_wp | solve [auto] |]
    | |- wpe (bind (reroll _) _) _ _ =>
      eapply wpe_bind_intro; [apply reroll_wp | solve [auto] |]
    | |- wpe (bind (pick_one _) _) _ _ => eapply wpe_seq; [apply pick_one_wp |]
    | |- wpe (match ?x with _ => _ end) _ _ =>
      let E := fresh "E" in destruct x eqn:E
    | |- wpe (bind (match ?x with _ => _ end) _) _ _ =>
      let E := fresh "E" in destruct x eqn:E
    | |- wpe (for_each _ _ _) _ _ => apply wpe_for_each; [intros ? ? ?|]
    | |- NoOverflow PanicOverflow => exfalso; bool_lia
    | |- NoOverflow _ => unfold NoOverflow; discriminate
    | |- True => exact I
    end).

(** What every action guarantees. *)
Definition step_post (s : Shop) (res : bool * Shop) : Prop :=
  (fst res = true -> snd res = s) /\ (shop_sorted s -> shop_sorted (snd res)).

Ltac post_go :=
  cbn [wpe bind] in *; unfold step_post, team_hook_post, shop_sorted in *;
  cbn [fst snd set_team set_gold team gold shop_friends shop_foods] in *;
  repeat match goal with
    | H : make_space_at _ _ = (false, _) |- _ => apply make_space_at_false in H; subst
    | H : _ /\ _ |- _ => destruct H
    | H : shop_friends _ = _ |- _ => rewrite H in *; clear H
    | H : shop_foods _ = _ |- _ => rewrite H in *; clear H
    end;
  try rewrite set_team_same;
  repeat split; intros; try discriminate; try tauto; try congruence;
  repeat match goal with H : _ /\ _ |- _ => destruct H end;
  auto using sort_friends_sorted, sort_foods_sorted.

Lemma step_action_wp act s : wpe (step_action act s) NoOverflow (step_post s).
Proof. destruct act; cbn [step_action]; wp_go; post_go. Qed.

Lemma step_wp s : wpe (step s) NoOverflow (step_post s).
Proof.
  unfold step, action_sample, roll; cbn [bind wpe]; intros r Hr.
  destruct r as [|[|[|[|[|[|r]]]]]]; cbn [bind wpe]; try apply step_action_wp.
  unfold NoOverflow; discriminate.
Qed.

Lemma run_steps_wp fuel s :
  wpe (run_steps fuel s) NoOverflow
      (fun res => shop_sorted s -> shop_sorted (snd res)).
Proof.
  revert s; induction fuel as [|fuel IH]; intros s; cbn [run_steps]; [simpl; auto|].
  unfold action_sample, roll; cbn [bind wpe]; intros r Hr.
  destruct r as [|[|[|[|[|[|r]]]]]]; cbn [bind wpe];
    try (unfold NoOverflow; discriminate);
    (eapply wpe_seq; [apply step_action_wp|]); intros [done s1] [_ Hs1];
    destruct done; cbn [bind wpe fst snd]; auto;
    (eapply wpe_seq; [apply IH|]); intros [tr s2] Hs2; cbn [wpe fst snd] in *; auto.
Qed.

(* ------------------------------------------------------------------ *)
(** ** The candidate selection of the combine actions *)

Lemma in_combine_seq {A} (l : list A) k i (x : A) :
  In (i, x) (List.combine (seq k (length l)) l) -> k <= i /\ nth_error l (i - k) = Some x.
Proof.
  revert k; induction l as [|y l IH]; intros k H; simpl in H; [contradiction|].
  destruct H as [H|H].
  - injection H as <- <-; rewrite Nat.sub_diag; split; auto.
  - apply IH in H as [H1 H2]; split; [lia|].
    replace (i - k) with (S (i - S k)) by lia; exact H2.
Qed.

(** The [nth] entry of [iter().enumerate().filter(|x| *x.1)] is an index
    holding [true]. *)
Lemma nth_filter_enumerate (l : list bool) r i b :
  nth_error (filter snd (enumerate l)) r = Some (i, b) ->
  b = true /\ nth_error l i = Some true.
Proof.
  intros H; apply nth_error_In, filter_In in H as [H Hb]; simpl in Hb; subst b.
  apply in_combine_seq in H as [_ H]; rewrite Nat.sub_0_r in H; auto.
Qed.

Lemma nth_error_map_seq (f : nat -> bool) n j b :
  nth_error (map f (seq 0 n)) j = Some b -> j < n /\ f j = b.
Proof.
  intros H; rewrite nth_error_map in H.
  destruct (nth_error (seq 0 n) j) as [k|] eqn:E; simpl in H; [|discriminate].
  injection H as <-.
  assert (j < n).
  { rewrite <- (length_seq n 0); apply nth_error_Some; congruence. }
  rewrite nth_error_seq in E; destruct (j <? n) eqn:?; [|bool_lia].
  injection E as <-; auto.
Qed.

Lemma same_species_spec a b :
  same_species a b = true ->
  exists f g, a = Some f /\ b = Some g /\ species f = species g.
Proof.
  destruct a as [f|], b as [g|]; simpl; try discriminate.
  intros H; apply species_eqb_eq in H; eauto.
Qed.

(** A pair marked in [targets] is two distinct occupied slots holding the
    same species. *)
Lemma targets_spec t i j :
  targets t i j = true ->
  i <> j /\ exists f g, nth i t None = Some f /\ nth j t None = Some g /\
                        species f = species g.
Proof.
  unfold targets, pair_ok; intros H.
  apply orb_true_iff in H as [H|H]; apply andb_true_iff in H as [Hlt H];
    apply Nat.ltb_lt in Hlt; apply same_species_spec in H as (f & g & H1 & H2 & H3);
    split; try lia.
  - eauto.
  - exists g, f; auto.
Qed.

(** Candidate pairs come only from the loop's pairs [i < j]. *)
Lemma targets_from_ordered_pairs t i j :
  targets t i j = true -> (i < j /\ pair_ok t i j = true) \/ (j < i /\ pair_ok t j i = true).
Proof.
  unfold targets; intros H; apply orb_true_iff in H as [H|H]; [left|right];
    split; auto; unfold pair_ok in H; apply andb_true_iff in H as [H _];
    apply Nat.ltb_lt; auto.
Qed.

(** Number of occupied slots. *)
Definition occupied_count {A} (l : list (option A)) : nat := length (filter is_some l).

Lemma replace_nth_count {A} (l l' : list (option A)) i x y :
  nth_error l i = Some x -> replace_nth l i y = Some l' ->
  occupied_count l' + (if is_some x then 1 else 0) =
  occupied_count l + (if is_some y then 1 else 0).
Proof.
  unfold occupied_count; revert l' i; induction l as [|h t IH]; intros l' i Hx Hr;
    simpl in Hr; [discriminate|].
  destruct i as [|i].
  - injection Hr as <-; simpl in Hx; injection Hx as ->; simpl.
    destruct (is_some x), (is_some y); simpl; lia.
  - destruct (replace_nth t i y) as [t'|] eqn:E; simpl in Hr; [|discriminate].
    injection Hr as <-; simpl in Hx; specialize (IH t' i Hx E); simpl.
    destruct (is_some h); simpl; lia.
Qed.

Lemma replace_nth_twice {A} (l l1 : list A) i x y :
  replace_nth l i x = Some l1 -> replace_nth l1 i y = replace_nth l i y.
Proof.
  revert l1 i; induction l as [|h t IH]; intros l1 i H; simpl in H; [discriminate|].
  destruct i as [|i]; [injection H as <-; reflexivity|].
  destruct (replace_nth t i x) as [t'|] eqn:E; simpl in H; [|discriminate].
  injection H as <-; simpl; rewrite (IH t' i E); reflexivity.
Qed.

Lemma Permutation_filter_length {A} (f : A -> bool) l l' :
  Permutation l l' -> length (filter f l) = length (filter f l').
Proof.
  induction 1; simpl; auto.
  - destruct (f x); simpl; auto.
  - destruct (f x), (f y); simpl; auto.
  - congruence.
Qed.

Lemma sort_friends_count l : occupied_count (sort_friends l) = occupied_count l.
Proof.
  unfold occupied_count; symmetry; apply Permutation_filter_length.
  apply FriendSort.Permuted_sort.
Qed.

(** Forward reasoning on a hypothesis [outcome p a]: peel off the binds and
    the primitive steps of [p]; the hooks stay as hypotheses. *)
Ltac out_red H :=
  unfold get, set, take, assert, unwrap, checked_sub, checked_add, roll, random_friend,
    random_food, team_random_friend, buy_friend, buy_food, sell_friend,
    combine_friends, on_sold, summon in H;
  cbn [bind set_team set_gold set_shop_friends set_shop_foods gold team
       shop_friends shop_foods negb andb orb fst snd for_each] in H.

Ltac out_go :=
  repeat match goal with
    | H : outcome (Ret _) _ |- _ =>
      apply outcome_ret_inv in H;
      first [ discriminate H | injection H; clear H; intros; subst | subst ]
    | H : outcome (Fail _) _ |- _ => apply outcome_fail_inv in H; contradiction
    | H : outcome (Roll _ _) _ |- _ =>
      let r := fresh "r" in let Hr := fresh "Hr" in
      apply outcome_roll_inv in H; destruct H as (r & Hr & H)
    | H : outcome (bind _ _) _ |- _ =>
      let x := fresh "x" in let Hx := fresh "Hx" in
      apply outcome_bind_inv in H; destruct H as (x & Hx & H)
    | H : outcome (match ?x with _ => _ end) _ |- _ =>
      let E := fresh "E" in destruct x eqn:E
    | H : outcome (pick_one _) _ |- _ =>
      apply (wpe_outcome _ _ _ _ (pick_one_wp _ (fun _ => True))) in H
    | H : outcome _ _ |- _ => progress (out_red H)
    end.

Lemma nth_error_nth_some {A} (l : list (option A)) i x :
  nth_error l i = Some (Some x) -> nth i l None = Some x.
Proof. intros H; apply (nth_error_nth _ _ None H). Qed.

(** What a successful CombineFriends does. *)
Lemma combine_friends_action s s' :
  outcome (step_action CombineFriends s) (false, s') ->
  exists i j a b,
    targets (team s) i j = true /\ i <> j /\ i < TEAM_SIZE /\ j < TEAM_SIZE /\
    nth i (team s) None = Some a /\ nth j (team s) None = Some b /\
    species a = species b /\
    nth i (team s') None = None /\ nth j (team s') None = Some (combine b a) /\
    (forall p, p <> i -> p <> j -> nth p (team s') None = nth p (team s) None) /\
    occupied_count (team s') + 1 = occupied_count (team s) /\
    gold s' = gold s /\ shop_friends s' = shop_friends s /\ shop_foods s' = shop_foods s.
Proof.
  cbn [step_action]; intros H; out_go.
  match goal with
  | E : nth_error (filter snd (enumerate (targets_row _ _))) _ = Some (?j, _) |- _ =>
    apply nth_filter_enumerate in E as [_ E]; unfold targets_row in E;
    apply nth_error_map_seq in E as [Hj Ht]
  end.
  match goal with
  | E : nth_error (filter snd (enumerate (has_targets _))) _ = Some (?i, _) |- _ =>
    apply nth_filter_enumerate in E as [_ E]; unfold has_targets in E;
    apply nth_error_map_seq in E as [Hi _]
  end.
  match goal with
  | E4 : nth_error (team s) ?i = Some (Some ?a), E3 : replace_nth (team s) ?i None = Some ?l,
    E2 : nth_error ?l ?j = Some (Some ?b), E1 : species_eqb (species ?b) (species ?a) = true,
    E0 : replace_nth ?l ?j (Some (combine ?b ?a)) = Some ?t |- _ =>
    pose proof (replace_nth_count _ _ _ _ _ E4 E3) as C1;
    pose proof (replace_nth_count _ _ _ _ _ E2 E0) as C2;
    apply nth_error_nth_some in E4; apply nth_error_nth_some in E2;
    apply replace_nth_spec in E3 as (_ & _ & N3 & O3);
    apply replace_nth_spec in E0 as (_ & _ & N0 & O0);
    apply species_eqb_eq in E1;
    exists i, j, a, b
  end.
  destruct (targets_spec _ _ _ Ht) as [Hne _].
  cbn [is_some] in C1, C2.
  rewrite O3 in E2 by auto.
  cbn [team set_team gold shop_friends shop_foods].
  repeat split; auto.
  - rewrite (O0 _ None Hne); apply N3.
  - intros p Hp1 Hp2; rewrite O0, O3; auto.
  - lia.
Qed.

Ltac shop_red := cbn [set_team set_gold team gold shop_friends shop_foods is_some negb] in *.

(** What a successful BuyCombineFriend does: the offer [a] of shop slot [i]
    is merged into the team friend [b] of slot [j]; then the merged friend
    is detached from slot [j], the on-buy hook runs with it on that state,
    and it is put back in slot [j]. *)
Lemma buy_combine_action s s' :
  outcome (step_action BuyCombineFriend s) (false, s') ->
  exists i j a b sf t1 s_hook,
    i < SHOP_ANIMAL_COUNT /\ j < TEAM_SIZE /\
    nth i (shop_friends s) None = Some a /\ nth j (team s) None = Some b /\
    species a = species b /\ 3 <= gold s /\
    replace_nth (shop_friends s) i None = Some sf /\
    replace_nth (team s) j None = Some t1 /\
    outcome (on_buy (mkShop t1 (gold s - 3) (sort_friends sf) (shop_foods s))
                    (combine b a)) s_hook /\
    replace_nth (team s_hook) j (Some (combine b a)) = Some (team s') /\
    gold s' = gold s_hook /\ shop_friends s' = shop_friends s_hook /\
    shop_foods s' = shop_foods s_hook.
Proof.
  cbn [step_action]; intros H; out_go; shop_red.
  match goal with
  | E : nth_error (filter snd (enumerate (shop_targets_row _ _))) _ = Some (?j, _) |- _ =>
    apply nth_filter_enumerate in E as [_ E]; unfold shop_targets_row in E;
    apply nth_error_map_seq in E as [Hj _]
  end.
  match goal with
  | E : nth_error (filter snd (enumerate (shop_has_targets _))) _ = Some (?i, _) |- _ =>
    apply nth_filter_enumerate in E as [_ E]; unfold shop_has_targets in E;
    apply nth_error_map_seq in E as [Hi _]
  end.
  match goal with
  | E9 : nth_error (shop_friends s) ?i = Some (Some ?a),
    E8 : replace_nth (shop_friends s) ?i None = Some ?sf,
    E7 : (3 <=? gold s) = true,
    E6 : nth_error (team s) ?j = Some (Some ?b),
    E5 : species_eqb (species ?b) (species ?a) = true,
    E4 : replace_nth (team s) ?j (Some (combine ?b ?a)) = Some ?t,
    E3 : nth_error ?t ?j = Some (Some ?m),
    E2 : replace_nth ?t ?j None = Some ?t1,
    Hh : outcome (on_buy _ ?m) ?sh,
    E1 : replace_nth (team ?sh) ?j (Some ?m) = Some ?t' |- _ =>
    assert (Hm : m = combine b a);
    [ apply replace_nth_spec in E4 as (_ & _ & N4 & _);
      apply nth_error_nth_some in E3; rewrite N4 in E3; congruence | subst m ];
    rewrite (replace_nth_twice _ _ _ _ _ E4) in E2;
    apply species_eqb_eq in E5; apply Nat.leb_le in E7;
    apply nth_error_nth_some in E9; apply nth_error_nth_some in E6;
    exists i, j, a, b, sf, t1, sh
  end.
  repeat split; auto.
Qed.

(** What a successful BuyFriend does: the offer [a] of shop slot [i] is
    bought; the on-buy hook runs with it while slot [j], made empty by
    [make_space_at], is still empty; then [a] is put in slot [j]. *)
Lemma buy_friend_action s s' :
  outcome (step_action BuyFriend s) (false, s') ->
  exists i j a t1 sf s_hook,
    j < TEAM_SIZE /\ nth i (shop_friends s) None = Some a /\
    make_space_at (team s) j = (true, t1) /\ nth_error t1 j = Some None /\
    3 <= gold s /\ replace_nth (shop_friends s) i None = Some sf /\
    outcome (on_buy (mkShop t1 (gold s - 3) (sort_friends sf) (shop_foods s)) a) s_hook /\
    replace_nth (team s_hook) j (Some a) = Some (team s') /\
    gold s' = gold s_hook /\ shop_friends s' = shop_friends s_hook /\
    shop_foods s' = shop_foods s_hook.
Proof.
  cbn [step_action]; intros H; out_go; shop_red.
  match goal with
  | E7 : nth_error (shop_friends s) ?i = Some (Some ?a0),
    E3 : Some (Some ?a0) = Some (Some ?a),
    E1 : make_space_at (team s) ?j = (true, ?t1),
    E4 : (3 <=? gold s) = true,
    E6 : nth_error ?t1 ?j = Some ?x,
    E5 : negb (is_some ?x) = true,
    E2 : replace_nth (shop_friends s) ?i None = Some ?sf,
    Hh : outcome (on_buy _ ?a) ?sh |- _ =>
    injection E3 as <-; destruct x; [discriminate|];
    apply Nat.leb_le in E4; apply nth_error_nth_some in E7;
    exists i, j, a0, t1, sf, sh
  end.
  repeat split; auto.
Qed.

Lemma on_buy_outcome s f s' : outcome (on_buy s f) s' -> team_hook_post s s'.
Proof. intros H; exact (wpe_outcome _ _ _ _ (on_buy_wp s f) H). Qed.

Lemma reroll_outcome s s' :
  outcome (reroll s) s' -> team s' = team s /\ gold s' = gold s /\ shop_sorted s'.
Proof. intros H; exact (wpe_outcome _ _ _ _ (reroll_wp s) H). Qed.

(* ------------------------------------------------------------------ *)
(** ** Concrete shops *)

Definition duck1 := friend_new Duck.
Definition otter1 := friend_new Otter.

(** A shop with one Duck in the team and a full shop of default offers. *)
Definition shop_duck : Shop :=
  mkShop [Some duck1; None; None; None; None] 10
         [Some (friend_new Ant); Some (friend_new Fish); Some otter1] [Some Apple].

(** [shop_duck] after the Duck has been sold: every offer got +1 health. *)
Definition shop_duck_sold : Shop :=
  mkShop [None; None; None; None; None] 11
         [Some (add_health 1 (friend_new Ant)); Some (add_health 1 (friend_new Fish));
          Some (add_health 1 otter1)] [Some Apple].

(** A team of two Otters, an Otter on offer. *)
Definition shop_otters : Shop :=
  mkShop [Some otter1; None; Some (buff otter1); None; None] 10
         [None; Some (friend_new Ant); Some otter1] [Some Honey].

(* ------------------------------------------------------------------ *)
(** ** The claims *)

(** C1: gold never goes below zero.  [gold] is a usize; no call of [step],
    and no sequence of calls, reaches a subtraction from [gold] that would
    go below zero: each spend (3 for BuyFriend, BuyFood and BuyCombineFriend,
    1 for Reroll) is reached only past a check of the gold balance. *)
Theorem gold_never_underflows :
  (forall s, wpe (step s) NoOverflow (fun _ => True)) /\
  (forall fuel s, wpe (run_steps fuel s) NoOverflow (fun _ => True)).
Proof.
  split; intros.
  - eapply wpe_mono; [apply step_wp | auto | auto].
  - eapply wpe_mono; [apply run_steps_wp | auto | auto].
Qed.

(** C2: when [step] signals the end of the round ([true]), the shop (team,
    gold and both offer arrays) is exactly what it was before the call. *)
Theorem step_true_leaves_shop : forall s s', outcome (step s) (true, s') -> s' = s.
Proof.
  intros s s' H; apply (wpe_outcome _ _ _ _ (step_wp s)) in H.
  destruct H as [H _]; apply H; reflexivity.
Qed.

Lemma step_true_leaves_shop_witness :
  outcome (step (set_gold shop_duck 0)) (true, set_gold shop_duck 0) /\
  set_gold shop_duck 0 = set_gold shop_duck 0.
Proof.
  assert (H : outcome (step (set_gold shop_duck 0)) (true, set_gold shop_duck 0)).
  { apply (exec_outcome [5] _ _ []); vm_compute; reflexivity. }
  split; [exact H | exact (step_true_leaves_shop _ _ H)].
Defined.

(** C6: both offer arrays stay in the canonical order: a step from a sorted
    shop leaves a sorted shop, whatever it did (the Duck's on-sell health
    bonus to every offer included), and a reroll (also at [Shop::new])
    sorts both arrays. *)
Theorem offers_stay_sorted :
  (forall s b s', shop_sorted s -> outcome (step s) (b, s') -> shop_sorted s') /\
  (forall s a s', Sorted_friends (shop_friends s) -> outcome (on_sell s a) s' ->
                  Sorted_friends (shop_friends s')) /\
  (forall s s', outcome (reroll s) s' -> shop_sorted s') /\
  (forall s, outcome shop_new s -> shop_sorted s).
Proof.
  split; [|split; [|split]].
  - intros s b s' Hs H; apply (wpe_outcome _ _ _ _ (step_wp s)) in H.
    destruct H as [_ H]; apply H, Hs.
  - intros s a s' Hs H; apply (wpe_outcome _ _ _ _ (on_sell_wp s a)) in H.
    destruct H as (_ & _ & H); apply H, Hs.
  - intros s s' H; apply reroll_outcome in H; tauto.
  - intros s H; apply reroll_outcome in H; tauto.
Qed.


Definition shop_ants : Shop :=
  mkShop team_new DEFAULT_GOLD
         [Some (friend_new Ant); Some (friend_new Ant); Some (friend_new Ant)]
         [Some Apple].

Lemma offers_stay_sorted_witness :
  shop_sorted shop_duck /\ shop_sorted shop_duck_sold /\
  Sorted_friends (shop_friends (set_gold shop_duck_sold 10)) /\
  shop_sorted (set_gold shop_ants 11) /\ shop_sorted shop_ants.
Proof.
  assert (Hs : shop_sorted shop_duck) by (split; repeat constructor).
  assert (H1 : outcome (step shop_duck) (false, shop_duck_sold)).
  { apply (exec_outcome [2; 0] _ _ []); vm_compute; reflexivity. }
  assert (H2 : outcome (on_sell (set_team shop_duck team_new) duck1)
                       (set_gold shop_duck_sold 10)).
  { apply (exec_outcome [] _ _ []); vm_compute; reflexivity. }
  assert (H3 : outcome (reroll shop_duck_sold) (set_gold shop_ants 11)).
  { apply (exec_outcome [0; 0; 0; 0] _ _ []); vm_compute; reflexivity. }
  assert (H4 : outcome shop_new shop_ants).
  { apply (exec_outcome [0; 0; 0; 0] _ _ []); vm_compute; reflexivity. }
  destruct offers_stay_sorted as (P1 & P2 & P3 & P4).
  split; [exact Hs|].
  split; [exact (P1 _ _ _ Hs H1)|].
  split; [exact (P2 (set_team shop_duck team_new) _ _ (proj1 Hs) H2)|].
  split; [exact (P3 _ _ H3) | exact (P4 _ H4)].
Defined.

(** A friend whose health and attack are those of [Friend::new]. *)
Definition baseline (f : Friend) : bool :=
  (health f =? fst (base_stats (species f))) && (attack f =? snd (base_stats (species f))).

(** Some offered friend has a stat other than its default. *)
Definition has_boosted_offer (s : Shop) : bool :=
  existsb (fun o => match o with Some f => negb (baseline f) | None => false end)
          (shop_friends s).

(** Every offer slot is filled. *)
Definition shop_full (s : Shop) : bool :=
  forallb is_some (shop_friends s) && forallb is_some (shop_foods s).

(** C3 (evidence at a reachable shop): selling a Duck from [shop_duck]
    raises the health of every offer, so [shop_duck_sold] has gold, a full
    shop and offers with non-default stats; Reroll there still returns
    [true] and leaves the shop as it is, instead of rerolling. *)
Theorem reroll_skips_boosted_full_shop :
  outcome (step shop_duck) (false, shop_duck_sold) /\
  gold shop_duck_sold <> 0 /\ shop_full shop_duck_sold = true /\
  has_boosted_offer shop_duck_sold = true /\
  step_action Reroll shop_duck_sold = Ret (true, shop_duck_sold).
Proof.
  split; [apply (exec_outcome [2; 0] _ _ []); vm_compute; reflexivity|].
  vm_compute; repeat split; discriminate.
Qed.

(** The range of the first roll a program asks for. *)
Definition first_roll_range {A} (p : prog A) : option nat :=
  match p with Roll n _ => Some n | _ => None end.

(** C4 (evidence): in [shop_duck] no two team friends share a species and
    no offer matches a team friend, and CombineFriends and BuyCombineFriend
    both ask for a roll in the empty range [0, 0) before they test for that;
    the dice fails there, so the round never reaches their "nothing to
    combine" exit. *)
Theorem combine_rolls_empty_range :
  first_roll_range (step_action CombineFriends shop_duck) = Some 0 /\
  first_roll_range (step_action BuyCombineFriend shop_duck) = Some 0 /\
  ~ rolls_nonempty (step shop_duck) /\
  (forall D (H : Dice D) (d : D),
     fst (fst (run d (step_action CombineFriends shop_duck))) = None /\
     fst (fst (run d (step_action BuyCombineFriend shop_duck))) = None).
Proof.
  split; [vm_compute; reflexivity|].
  split; [vm_compute; reflexivity|].
  split.
  - intros [_ H]; specialize (H 4 ltac:(lia)); vm_compute in H; destruct H; lia.
  - intros D HD d.
    destruct (step_action CombineFriends shop_duck) as [a|e|n k] eqn:E1;
      vm_compute in E1; try discriminate; injection E1 as <- _.
    destruct (step_action BuyCombineFriend shop_duck) as [a|e|n k'] eqn:E2;
      vm_compute in E2; try discriminate; injection E2 as <- _.
    split; reflexivity.
Qed.

Lemma nth_some_lt {A} (l : list (option A)) j x : nth j l None = Some x -> j < length l.
Proof.
  intros H; destruct (Nat.lt_ge_cases j (length l)) as [Hl|Hl]; auto.
  rewrite nth_overflow in H by auto; discriminate.
Qed.

Lemma combine_not_absorbed a b : combine b a <> a.
Proof. intros H; apply (f_equal health) in H; simpl in H; lia. Qed.

(** The result of [p] on the answers [rs] ([dflt] when it fails). *)
Definition result_of {A} (rs : list nat) (p : prog A) (dflt : A) : A :=
  match exec rs p with Some (a, _) => a | None => dflt end.

Definition otters_combined : Shop :=
  snd (result_of [0; 0] (step_action CombineFriends shop_otters) (true, shop_otters)).
Definition otters_buy_combined : Shop :=
  snd (result_of [0; 0; 0] (step_action BuyCombineFriend shop_otters) (true, shop_otters)).
Definition otters_bought : Shop :=
  snd (result_of [1; 1; 0] (step_action BuyFriend shop_otters) (true, shop_otters)).

Lemma otters_combine_outcome :
  outcome (step_action CombineFriends shop_otters) (false, otters_combined).
Proof. apply (exec_outcome [0; 0] _ _ []); vm_compute; reflexivity. Qed.

Lemma otters_buy_combine_outcome :
  outcome (step_action BuyCombineFriend shop_otters) (false, otters_buy_combined).
Proof. apply (exec_outcome [0; 0; 0] _ _ []); vm_compute; reflexivity. Qed.

Lemma otters_buy_outcome :
  outcome (step_action BuyFriend shop_otters) (false, otters_bought).
Proof. apply (exec_outcome [1; 1; 0] _ _ []); vm_compute; reflexivity. Qed.

(** C5: after a successful CombineFriends or BuyCombineFriend merging [a]
    into the team friend [b], the survivor [m] in [b]'s slot has health
    [max + 1], attack [max + 1] and one more experience than [b]; the slot
    [a] came from has one friend fewer (CombineFriends: team slot [i] is
    now empty; BuyCombineFriend: the re-sorted offer array holds one friend
    fewer). *)
Theorem combine_merges_stats :
  (forall s s', outcome (step_action CombineFriends s) (false, s') ->
   exists i j a b m,
     i <> j /\ nth i (team s) None = Some a /\ nth j (team s) None = Some b /\
     nth j (team s') None = Some m /\
     health m = Nat.max (health a) (health b) + 1 /\
     attack m = Nat.max (attack a) (attack b) + 1 /\ exp m = exp b + 1 /\
     nth i (team s') None = None /\
     occupied_count (team s') + 1 = occupied_count (team s)) /\
  (forall s s', outcome (step_action BuyCombineFriend s) (false, s') ->
   exists i j a b m,
     nth i (shop_friends s) None = Some a /\ nth j (team s) None = Some b /\
     nth j (team s') None = Some m /\
     health m = Nat.max (health a) (health b) + 1 /\
     attack m = Nat.max (attack a) (attack b) + 1 /\ exp m = exp b + 1 /\
     occupied_count (shop_friends s') + 1 = occupied_count (shop_friends s)).
Proof.
  split.
  - intros s s' H.
    destruct (combine_friends_action s s' H)
      as (i & j & a & b & _ & Hne & _ & _ & Ha & Hb & _ & Hi & Hj & _ & Hc & _).
    exists i, j, a, b, (combine b a); simpl.
    repeat split; auto; lia.
  - intros s s' H.
    destruct (buy_combine_action s s' H)
      as (i & j & a & b & sf & t1 & sh & _ & _ & Ha & Hb & _ & _ & Hsf & _ & Hh & Ht & _ & Hf & _).
    apply on_buy_outcome in Hh as (_ & Hf' & _).
    cbn [shop_friends] in Hf'.
    assert (Hc : occupied_count sf + 1 = occupied_count (shop_friends s)).
    { assert (Hl := nth_some_lt _ _ _ Ha).
      pose proof (replace_nth_count _ _ _ _ _ (nth_error_nth' _ None Hl) Hsf) as C.
      rewrite Ha in C; simpl in C; lia. }
    apply replace_nth_spec in Ht as (_ & _ & Nj & _).
    exists i, j, a, b, (combine b a); simpl.
    repeat split; auto; try lia.
    rewrite Hf, Hf', sort_friends_count; exact Hc.
Qed.

Lemma combine_merges_stats_witness :
  (exists i j a b m,
     i <> j /\ nth i (team shop_otters) None = Some a /\
     nth j (team shop_otters) None = Some b /\
     nth j (team otters_combined) None = Some m /\
     health m = Nat.max (health a) (health b) + 1 /\
     attack m = Nat.max (attack a) (attack b) + 1 /\ exp m = exp b + 1 /\
     nth i (team otters_combined) None = None /\
     occupied_count (team otters_combined) + 1 = occupied_count (team shop_otters)) /\
  (exists i j a b m,
     nth i (shop_friends shop_otters) None = Some a /\
     nth j (team shop_otters) None = Some b /\
     nth j (team otters_buy_combined) None = Some m /\
     health m = Nat.max (health a) (health b) + 1 /\
     attack m = Nat.max (attack a) (attack b) + 1 /\ exp m = exp b + 1 /\
     occupied_count (shop_friends otters_buy_combined) + 1 =
     occupied_count (shop_friends shop_otters)).
Proof.
  split.
  - exact (proj1 combine_merges_stats _ _ otters_combine_outcome).
  - exact (proj2 combine_merges_stats _ _ otters_buy_combine_outcome).
Defined.

(** C7: in a successful BuyCombineFriend, the purchased offer [a] is first
    merged into team slot [j] (giving [t_merged]); the merged friend is then
    detached from slot [j], the on-buy hook runs on the post-combine shop
    with that merged friend, which differs from the purchased offer, and the
    merged friend is put back at slot [j]. *)
Theorem buy_combine_hook_after_merge s s' :
  outcome (step_action BuyCombineFriend s) (false, s') ->
  exists i j a b sf t_merged t_detached s_hook,
    nth i (shop_friends s) None = Some a /\ nth j (team s) None = Some b /\
    replace_nth (shop_friends s) i None = Some sf /\
    replace_nth (team s) j (Some (combine b a)) = Some t_merged /\
    nth j t_merged None = Some (combine b a) /\
    replace_nth t_merged j None = Some t_detached /\
    outcome (on_buy (mkShop t_detached (gold s - 3) (sort_friends sf) (shop_foods s))
                    (combine b a)) s_hook /\
    combine b a <> a /\
    replace_nth (team s_hook) j (Some (combine b a)) = Some (team s') /\
    gold s' = gold s_hook /\ shop_friends s' = shop_friends s_hook /\
    shop_foods s' = shop_foods s_hook.
Proof.
  intros H.
  destruct (buy_combine_action s s' H)
    as (i & j & a & b & sf & t1 & sh & _ & _ & Ha & Hb & _ & _ & Hsf & Ht1 & Hh & Ht & Hg & Hf & Hfo).
  destruct (replace_nth_in_range (team s) j (Some (combine b a)) (nth_some_lt _ _ _ Hb))
    as [tm Htm].
  exists i, j, a, b, sf, tm, t1, sh.
  pose proof (replace_nth_spec _ _ _ _ Htm) as (_ & _ & Nj & _).
  repeat split; auto using combine_not_absorbed.
  rewrite (replace_nth_twice _ _ _ _ _ Htm); exact Ht1.
Qed.

Lemma buy_combine_hook_after_merge_witness :
  exists i j a b sf t_merged t_detached s_hook,
    nth i (shop_friends shop_otters) None = Some a /\
    nth j (team shop_otters) None = Some b /\
    replace_nth (shop_friends shop_otters) i None = Some sf /\
    replace_nth (team shop_otters) j (Some (combine b a)) = Some t_merged /\
    nth j t_merged None = Some (combine b a) /\
    replace_nth t_merged j None = Some t_detached /\
    outcome (on_buy (mkShop t_detached (gold shop_otters - 3) (sort_friends sf)
                            (shop_foods shop_otters)) (combine b a)) s_hook /\
    combine b a <> a /\
    replace_nth (team s_hook) j (Some (combine b a)) = Some (team otters_buy_combined) /\
    gold otters_buy_combined = gold s_hook /\
    shop_friends otters_buy_combined = shop_friends s_hook /\
    shop_foods otters_buy_combined = shop_foods s_hook.
Proof. exact (buy_combine_hook_after_merge _ _ otters_buy_combine_outcome). Defined.

(** C8: no self-combination.  The CombineFriends candidate pairs are built
    only from [i < j]; a marked pair [targets t i j] joins two distinct
    occupied slots holding the same species.  A successful CombineFriends
    merges the friend [a] of slot [i] into the friend [b] of a distinct slot
    [j] of the same species: afterwards slot [i] is empty, slot [j] holds
    [combine b a], and no other slot changed.  A successful BuyCombineFriend
    merges the offer [a] of shop slot [i] into the team friend [b] of slot [j]
    of its species: afterwards offer [i] has left the (re-sorted) offers and
    team slot [j] holds [combine b a]. *)
Theorem no_self_combination :
  (forall t i j, pair_ok t i j = true -> i < j) /\
  (forall t i j, targets t i j = true ->
     i <> j /\ exists f g, nth i t None = Some f /\ nth j t None = Some g /\
                           species f = species g) /\
  (forall s s', outcome (step_action CombineFriends s) (false, s') ->
     exists i j a b, targets (team s) i j = true /\ i <> j /\
       nth i (team s) None = Some a /\ nth j (team s) None = Some b /\
       species a = species b /\
       nth i (team s') None = None /\ nth j (team s') None = Some (combine b a) /\
       (forall p, p <> i -> p <> j -> nth p (team s') None = nth p (team s) None)) /\
  (forall s s', outcome (step_action BuyCombineFriend s) (false, s') ->
     exists i j a b sf, nth i (shop_friends s) None = Some a /\
       nth j (team s) None = Some b /\ species a = species b /\
       replace_nth (shop_friends s) i None = Some sf /\
       shop_friends s' = sort_friends sf /\
       nth j (team s') None = Some (combine b a)).
Proof.
  split; [|split; [|split]].
  - unfold pair_ok; intros t i j H; apply andb_true_iff in H as [H _].
    apply Nat.ltb_lt; exact H.
  - exact targets_spec.
  - intros s s' H.
    destruct (combine_friends_action s s' H)
      as (i & j & a & b & Ht & Hne & _ & _ & Ha & Hb & Hs & Hi' & Hj' & Hp & _).
    exists i, j, a, b; repeat split; auto.
  - intros s s' H.
    destruct (buy_combine_action s s' H)
      as (i & j & a & b & sf & t1 & sh & _ & _ & Ha & Hb & Hs & _ & Hsf & _ & Hh & Ht & _ & Hfr & _).
    exists i, j, a, b, sf.
    apply on_buy_outcome in Hh as (_ & Hhf & _).
    apply replace_nth_spec in Ht as (_ & _ & Nj & _).
    cbn [shop_friends] in Hhf; repeat split; auto; congruence.
Qed.

Lemma no_self_combination_witness :
  pair_ok (team shop_otters) 0 2 = true /\ 0 < 2 /\
  targets (team shop_otters) 2 0 = true /\
  (2 <> 0 /\ exists f g, nth 2 (team shop_otters) None = Some f /\
     nth 0 (team shop_otters) None = Some g /\ species f = species g) /\
  (exists i j a b, targets (team shop_otters) i j = true /\ i <> j /\
     nth i (team shop_otters) None = Some a /\ nth j (team shop_otters) None = Some b /\
     species a = species b /\
     nth i (team otters_combined) None = None /\
     nth j (team otters_combined) None = Some (combine b a) /\
     (forall p, p <> i -> p <> j ->
        nth p (team otters_combined) None = nth p (team shop_otters) None)) /\
  (exists i j a b sf, nth i (shop_friends shop_otters) None = Some a /\
     nth j (team shop_otters) None = Some b /\ species a = species b /\
     replace_nth (shop_friends shop_otters) i None = Some sf /\
     shop_friends otters_buy_combined = sort_friends sf /\
     nth j (team otters_buy_combined) None = Some (combine b a)).
Proof.
  assert (P : pair_ok (team shop_otters) 0 2 = true) by (vm_compute; reflexivity).
  assert (T : targets (team shop_otters) 2 0 = true) by (vm_compute; reflexivity).
  split; [exact P|].
  split; [exact (proj1 no_self_combination _ _ _ P)|].
  split; [exact T|].
  split; [exact (proj1 (proj2 no_self_combination) _ _ _ T)|].
  split.
  - exact (proj1 (proj2 (proj2 no_self_combination)) _ _ otters_combine_outcome).
  - exact (proj2 (proj2 (proj2 no_self_combination)) _ _ otters_buy_combine_outcome).
Defined.

(** Two dice sources that answer every sequence of requests alike give the
    same result and trace on every program. *)
Lemma run_agree {D1 D2} `{Dice D1} `{Dice D2} {A} (p : prog A) :
  forall (d1 : D1) (d2 : D2),
  (forall reqs, answers d1 reqs = answers d2 reqs) ->
  fst (run d1 p) = fst (run d2 p).
Proof.
  induction p as [a|e|n k IH]; intros d1 d2 Hd; simpl; auto.
  destruct (n =? 0); auto.
  destruct (dice_roll d1 n) as [r1 d1'] eqn:E1.
  destruct (dice_roll d2 n) as [r2 d2'] eqn:E2.
  assert (Hr : r1 = r2 /\ forall reqs, answers d1' reqs = answers d2' reqs).
  { split.
    - specialize (Hd [n]); simpl in Hd; rewrite E1, E2 in Hd.
      injection Hd; auto.
    - intros reqs; specialize (Hd (n :: reqs)); simpl in Hd; rewrite E1, E2 in Hd.
      injection Hd; auto. }
  destruct Hr as [<- Hr].
  destruct (n <=? r1); auto.
  specialize (IH r1 d1' d2' Hr).
  destruct (run d1' (k r1)) as [[x1 t1] e1]; destruct (run d2' (k r1)) as [[x2 t2] e2].
  simpl in *; congruence.
Qed.

(** Two dice sources of different representations, used as an example of
    sources that agree: one pops a list, the other reads a list through a
    counter. *)
#[local] Instance list_dice : Dice (list nat) :=
  fun l _ => match l with r :: l' => (r, l') | [] => (0, []) end.
#[local] Instance counter_dice : Dice (nat * list nat) :=
  fun d _ => (nth (fst d) (snd d) 0, (S (fst d), snd d)).

Lemma skipn_pop (l : list nat) c :
  match skipn c l with r :: l' => (r, l') | [] => (0, []) end =
  (nth c l 0, skipn (S c) l).
Proof.
  revert c; induction l as [|h t IH]; intros [|c]; simpl; auto.
Qed.

Lemma list_counter_agree (l : list nat) c reqs :
  answers (skipn c l) reqs = answers (c, l) reqs.
Proof.
  revert c; induction reqs as [|n ns IH]; intros c; [reflexivity|].
  cbn [answers]; unfold dice_roll, list_dice, counter_dice.
  rewrite skipn_pop; cbn [fst snd]; f_equal; apply (IH (S c)).
Qed.

(** C9: [step] and the round driver [run_steps] are deterministic given
    their random source: from the same shop, two dice sources that answer
    every sequence of roll requests alike yield the same outcome (returned
    signal, final shop, and for [run_steps] the list of actions drawn) and
    the same trace of requests and answers. *)
Theorem step_deterministic {D1 D2} `{Dice D1} `{Dice D2} (d1 : D1) (d2 : D2) :
  (forall reqs, answers d1 reqs = answers d2 reqs) ->
  forall s fuel,
    fst (run d1 (step s)) = fst (run d2 (step s)) /\
    fst (run d1 (run_steps fuel s)) = fst (run d2 (run_steps fuel s)).
Proof. intros Hd s fuel; split; apply run_agree; exact Hd. Qed.

Definition seed : list nat := [4; 0; 0; 1; 1; 0; 2; 0; 0; 0; 5].

Lemma step_deterministic_witness :
  (forall reqs, answers seed reqs = answers (0, seed) reqs) /\
  fst (run seed (step shop_otters)) = fst (run (0, seed) (step shop_otters)) /\
  fst (run seed (run_steps 4 shop_otters)) = fst (run (0, seed) (run_steps 4 shop_otters)).
Proof.
  assert (Hd : forall reqs, answers seed reqs = answers (0, seed) reqs)
    by (intros reqs; exact (list_counter_agree seed 0 reqs)).
  split; [exact Hd|].
  exact (step_deterministic seed (0, seed) Hd shop_otters 4).
Defined.

(** C10: the on-buy hook never fills an empty team slot, and whenever it
    runs the slot that will receive the bought or merged friend is empty.
    In BuyFriend the offer [a] is taken from shop slot [i], slot [j] of the
    team [t1] left by [make_space_at] is empty, the hook runs on exactly that
    shop (with [t1], three gold less and the re-sorted offers), slot [j] is
    still empty when it returns, and the final shop is the hook's result with
    [a], unchanged, put in slot [j].  In BuyCombineFriend the merged friend's
    slot [j] is detached before the hook runs, stays empty during it, and
    receives the merged friend afterwards.  So the Otter buff only reaches
    friends already in the team, never the friend that triggered it. *)
Theorem hook_skips_trigger :
  (forall s f s', outcome (on_buy s f) s' ->
     forall p, nth p (team s) None = None -> nth p (team s') None = None) /\
  (forall s s', outcome (step_action BuyFriend s) (false, s') ->
     exists i j a t1 sf s_hook,
       nth i (shop_friends s) None = Some a /\
       make_space_at (team s) j = (true, t1) /\
       replace_nth (shop_friends s) i None = Some sf /\
       nth j t1 None = None /\
       outcome (on_buy (mkShop t1 (gold s - 3) (sort_friends sf) (shop_foods s)) a) s_hook /\
       nth j (team s_hook) None = None /\
       replace_nth (team s_hook) j (Some a) = Some (team s') /\
       nth j (team s') None = Some a /\
       gold s' = gold s_hook /\ shop_friends s' = shop_friends s_hook /\
       shop_foods s' = shop_foods s_hook) /\
  (forall s s', outcome (step_action BuyCombineFriend s) (false, s') ->
     exists i j a b t1 sf s_hook,
       nth i (shop_friends s) None = Some a /\ nth j (team s) None = Some b /\
       replace_nth (team s) j None = Some t1 /\
       replace_nth (shop_friends s) i None = Some sf /\
       nth j t1 None = None /\
       outcome (on_buy (mkShop t1 (gold s - 3) (sort_friends sf) (shop_foods s))
                       (combine b a)) s_hook /\
       nth j (team s_hook) None = None /\
       replace_nth (team s_hook) j (Some (combine b a)) = Some (team s') /\
       nth j (team s') None = Some (combine b a) /\
       gold s' = gold s_hook /\ shop_friends s' = shop_friends s_hook /\
       shop_foods s' = shop_foods s_hook).
Proof.
  split; [|split].
  - intros s f s' H; apply on_buy_outcome in H as (_ & _ & _ & _ & Hp); exact Hp.
  - intros s s' H.
    destruct (buy_friend_action s s' H)
      as (i & j & a & t1 & sf & sh & _ & Ha & Hm & Hj & _ & Hsf & Hh & Ht & Hg & Hfr & Hfo).
    assert (Hj' : nth j t1 None = None) by (apply nth_error_nth with (d := None) in Hj; exact Hj).
    exists i, j, a, t1, sf, sh.
    pose proof Hh as Hh'; apply on_buy_outcome in Hh' as (_ & _ & _ & _ & Hp).
    pose proof (replace_nth_spec _ _ _ _ Ht) as (_ & _ & Nj & _).
    repeat split; auto.
  - intros s s' H.
    destruct (buy_combine_action s s' H)
      as (i & j & a & b & sf & t1 & sh & _ & _ & Ha & Hb & _ & _ & Hsf & Ht1 & Hh & Ht & Hg & Hfr & Hfo).
    exists i, j, a, b, t1, sf, sh.
    pose proof (replace_nth_spec _ _ _ _ Ht1) as (_ & _ & N1 & _).
    pose proof Hh as Hh'; apply on_buy_outcome in Hh' as (_ & _ & _ & _ & Hp).
    pose proof (replace_nth_spec _ _ _ _ Ht) as (_ & _ & Nj & _).
    repeat split; auto.
Qed.

Definition otters_hook_team : Team := [None; None; Some otter1; None; None].

Lemma hook_skips_trigger_witness :
  (forall p, nth p (team (set_team shop_otters otters_hook_team)) None = None ->
     nth p (team (result_of [0] (on_buy (set_team shop_otters otters_hook_team) otter1)
                  shop_otters)) None = None) /\
  (exists i j a t1 sf s_hook,
     nth i (shop_friends shop_otters) None = Some a /\
     make_space_at (team shop_otters) j = (true, t1) /\
     replace_nth (shop_friends shop_otters) i None = Some sf /\
     nth j t1 None = None /\
     outcome (on_buy (mkShop t1 (gold shop_otters - 3) (sort_friends sf)
                             (shop_foods shop_otters)) a) s_hook /\
     nth j (team s_hook) None = None /\
     replace_nth (team s_hook) j (Some a) = Some (team otters_bought) /\
     nth j (team otters_bought) None = Some a /\
     gold otters_bought = gold s_hook /\ shop_friends otters_bought = shop_friends s_hook /\
     shop_foods otters_bought = shop_foods s_hook) /\
  (exists i j a b t1 sf s_hook,
     nth i (shop_friends shop_otters) None = Some a /\
     nth j (team shop_otters) None = Some b /\
     replace_nth (team shop_otters) j None = Some t1 /\
     replace_nth (shop_friends shop_otters) i None = Some sf /\
     nth j t1 None = None /\
     outcome (on_buy (mkShop t1 (gold shop_otters - 3) (sort_friends sf)
                             (shop_foods shop_otters)) (combine b a)) s_hook /\
     nth j (team s_hook) None = None /\
     replace_nth (team s_hook) j (Some (combine b a)) = Some (team otters_buy_combined) /\
     nth j (team otters_buy_combined) None = Some (combine b a) /\
     gold otters_buy_combined = gold s_hook /\
     shop_friends otters_buy_combined = shop_friends s_hook /\
     shop_foods otters_buy_combined = shop_foods s_hook).
Proof.
  split; [|split].
  - apply (proj1 hook_skips_trigger _ otter1).
    apply (exec_outcome [0] _ _ []); vm_compute; reflexivity.
  - exact (proj1 (proj2 hook_skips_trigger) _ _ otters_buy_outcome).
  - exact (proj2 (proj2 hook_skips_trigger) _ _ otters_buy_combine_outcome).
Defined.


(** The strict reading of a program: it ends with a result satisfying [Q]
    without panicking, and every roll it requests is over a non-empty range
    (the dice source must fail on an empty one). *)
Fixpoint wps {A} (p : prog A) (Q : A -> Prop) : Prop :=
  match p with
  | Ret a => Q a
  | Fail _ => False
  | Roll n k => 0 < n /\ forall r, r < n -> wps (k r) Q
  end.

Lemma wps_bind {A B} (p : prog A) (f : A -> prog B) Q :
  wps (bind p f) Q <-> wps p (fun a => wps (f a) Q).
Proof.
  induction p as [a|e|n k IH]; simpl; try tauto.
  split; intros [Hn H]; split; auto; intros r Hr; apply IH; auto.
Qed.

Lemma wps_mono {A} (p : prog A) (Q Q' : A -> Prop) :
  wps p Q -> (forall a, Q a -> Q' a) -> wps p Q'.
Proof.
  induction p as [a|e|n k IH]; simpl; auto.
  intros [Hn H] HQ; split; auto.
Qed.

Lemma wps_seq {A B} (p : prog A) (f : A -> prog B) Q P :
  wps p P -> (forall a, P a -> wps (f a) Q) -> wps (bind p f) Q.
Proof. intros Hp Hf; apply wps_bind; eapply wps_mono; eauto. Qed.

Lemma wps_wpe {A} (p : prog A) E Q : wps p Q -> wpe p E Q.
Proof.
  induction p as [a|e|n k IH]; simpl; [auto | tauto |].
  intros [_ H] r Hr; auto.
Qed.

Lemma wps_outcome {A} (p : prog A) Q a : wps p Q -> outcome p a -> Q a.
Proof. intros H; apply (wpe_outcome p (fun _ => False)), wps_wpe, H. Qed.


Lemma wps_map_m {A B} (f : A -> prog B) (l : list A) (P : B -> Prop) :
  (forall x, wps (f x) P) ->
  wps (map_m f l) (fun ys => length ys = length l /\ Forall P ys).
Proof.
  intros Hf; induction l as [|x l IH]; simpl; auto.
  eapply wps_seq; [apply Hf|]; intros y Hy.
  eapply wps_seq; [apply IH|]; intros ys [Hl Hys]; simpl; auto.
Qed.









Lemma species_sample_np : wps species_sample (fun sp => True).
Proof.
  unfold species_sample, roll; cbn [bind wps]; split; [simpl; lia|]; intros r Hr; simpl in Hr.
  do 9 (destruct r as [|r]; [simpl; exact I|]); lia.
Qed.

Lemma food_sample_np : wps food_sample (fun _ => True).
Proof.
  unfold food_sample, roll; cbn [bind wps]; split; [simpl; lia|]; intros r Hr.
  do 2 (destruct r as [|r]; [simpl; exact I|]); lia.
Qed.

Lemma Forall_sort_friends (P : option Friend -> Prop) l :
  Forall P l -> Forall P (sort_friends l).
Proof.
  intros H; eapply Permutation_Forall; [apply FriendSort.Permuted_sort | exact H].
Qed.

Lemma Forall_sort_foods (P : option Food -> Prop) l :
  Forall P l -> Forall P (sort_foods l).
Proof.
  intros H; eapply Permutation_Forall; [apply FoodSort.Permuted_sort | exact H].
Qed.

Lemma length_sort_friends l : length (sort_friends l) = length l.
Proof. symmetry; apply Permutation_length, FriendSort.Permuted_sort. Qed.

Lemma length_sort_foods l : length (sort_foods l) = length l.
Proof. symmetry; apply Permutation_length, FoodSort.Permuted_sort. Qed.

(** [reroll] fills every offer slot with a friend of default stats and
    every food slot, never panicking. *)
Lemma reroll_np s :
  wps (reroll s)
    (fun s' => team s' = team s /\ gold s' = gold s /\
       length (shop_friends s') = length (shop_friends s) /\
       length (shop_foods s') = length (shop_foods s) /\
       Forall (fun o => exists sp, o = Some (friend_new sp)) (shop_friends s') /\
       Forall (fun o => is_some o = true) (shop_foods s') /\ shop_sorted s').
Proof.
  unfold reroll.
  eapply wps_seq.
  { apply wps_map_m with (P := fun o => exists sp, o = Some (friend_new sp)); intros _.
    eapply wps_seq; [apply species_sample_np|]; intros sp _; simpl; eauto. }
  intros fr [Hl Hf].
  eapply wps_seq.
  { apply wps_map_m with (P := fun o => is_some o = true); intros _.
    eapply wps_seq; [apply food_sample_np|]; intros f _; simpl; auto. }
  intros fo [Hl' Hf']; unfold shop_sorted; cbn [wps team gold shop_friends shop_foods].
  rewrite length_sort_friends, length_sort_foods.
  repeat split; auto using Forall_sort_friends, Forall_sort_foods,
    sort_friends_sorted, sort_foods_sorted.
Qed.













(** What a successful BuyFood does. *)
Lemma buy_food_action s s' :
  outcome (step_action BuyFood s) (false, s') ->
  exists i j food f fo,
    3 <= gold s /\ nth i (shop_foods s) None = Some food /\
    nth j (team s) None = Some f /\
    replace_nth (shop_foods s) i None = Some fo /\
    replace_nth (team s) j (Some (feed food f)) = Some (team s') /\
    gold s' = gold s - 3 /\ shop_friends s' = shop_friends s /\
    shop_foods s' = sort_foods fo.
Proof.
  cbn [step_action]; intros H; out_go; shop_red.
  match goal with
  | Ef : nth_error (shop_foods s) ?i = Some ?x, Ex : Some ?x = Some (Some ?food),
    Et : nth_error (team s) ?j = Some (Some ?f),
    Efo : replace_nth (shop_foods s) ?i None = Some ?fo,
    Eg : (3 <=? gold s) = true |- _ =>
    injection Ex as ->; apply nth_error_nth_some in Ef; apply nth_error_nth_some in Et;
    apply Nat.leb_le in Eg; exists i, j, food, f, fo
  end.
  repeat split; auto.
Qed.

Lemma for_each_frame_outcome {S X} (xs : list X) (body : X -> S -> prog S) s s' :
  (forall x st r, outcome (body x st) r -> r = st) ->
  outcome (for_each xs body s) s' -> s' = s.
Proof.
  intros Hb; revert s; induction xs as [|x xs IH]; intros s H; simpl in H.
  - apply outcome_ret_inv in H; auto.
  - apply outcome_bind_inv in H as (st & H1 & H2).
    apply Hb in H1; subst; auto.
Qed.

(** What a successful SellFriend does, up to the on-sell hook. *)
Lemma sell_action s s' :
  outcome (step_action SellFriend s) (false, s') ->
  exists j a t, nth j (team s) None = Some a /\
    replace_nth (team s) j None = Some t /\
    outcome (on_sell (mkShop t (gold s + level a) (shop_friends s) (shop_foods s)) a) s'.
Proof.
  cbn [step_action]; intros H.
  apply outcome_bind_inv in H as (oj & Hj & H).
  apply (wpe_outcome _ _ _ _ (team_random_friend_wp _ (fun _ => True))) in Hj.
  destruct oj as [j|]; [|apply outcome_ret_inv in H; discriminate].
  apply outcome_bind_inv in H as (s1 & Hs & H); apply outcome_ret_inv in H.
  injection H as <-.
  out_go; shop_red.
  match goal with
  | Hl : outcome (for_each ?xs ?b ?s0) ?s2 |- _ =>
    assert (s2 = s0) by (apply (for_each_frame_outcome xs b s0 s2);
                         [intros ? ? ? Hr; out_go; auto | exact Hl])
  end.
  subst.
  match goal with
  | Ex : Some ?x = Some (Some ?a), Et : nth_error (team s) j = Some ?x,
    Er : replace_nth (team s) j None = Some ?t |- _ =>
    injection Ex as ->; apply nth_error_nth_some in Et; exists j, a, t
  end.
  repeat split; auto.
Qed.

(** What a successful Reroll does. *)
Lemma reroll_action s s' :
  outcome (step_action Reroll s) (false, s') ->
  gold s <> 0 /\
  (existsb (fun o => negb (is_some o)) (shop_foods s) ||
   existsb (fun o => negb (is_some o)) (shop_friends s)) = true /\
  exists s1, outcome (reroll s) s1 /\ s' = set_gold s1 (gold s1 - 1).
Proof.
  cbn [step_action]; intros H.
  destruct (gold s =? 0) eqn:E0; [apply outcome_ret_inv in H; discriminate|].
  destruct (_ || _) eqn:E1; [|apply outcome_ret_inv in H; discriminate].
  apply outcome_bind_inv in H as (s1 & Hs1 & H).
  apply Nat.eqb_neq in E0; split; [exact E0|]; split; [reflexivity|].
  exists s1; split; [exact Hs1|].
  unfold checked_sub in H; destruct (1 <=? gold s1); cbn [bind] in H;
    [|apply outcome_fail_inv in H; contradiction].
  apply outcome_ret_inv in H; injection H as <-; reflexivity.
Qed.

Lemma sample_distinct_outcome k pool idx :
  outcome (sample_distinct k pool) idx ->
  length idx <= k /\ NoDup idx /\ incl idx pool.
Proof.
  revert pool idx; induction k as [|k IH]; intros pool idx H; cbn [sample_distinct] in H.
  - apply outcome_ret_inv in H; subst; simpl; split; [lia|split; [constructor | intros ? []]].
  - destruct pool as [|p0 ps].
    + apply outcome_ret_inv in H; subst; simpl; split; [lia|split; [constructor | intros ? []]].
    + apply outcome_roll_inv in H as (r & Hr & H); cbn [bind] in H.
      apply outcome_bind_inv in H as (i & Hi & H).
      destruct (nth_error (p0 :: ps) r) as [i'|] eqn:Er; cbn [unwrap] in Hi;
        [|apply outcome_fail_inv in Hi; contradiction].
      apply outcome_ret_inv in Hi; subst i'.
      apply outcome_bind_inv in H as (rest & Hrest & H); apply outcome_ret_inv in H; subst idx.
      apply IH in Hrest as (Hl & Hnd & Hinc).
      assert (Hin : In i (p0 :: ps)) by (eapply nth_error_In; eauto).
      simpl; repeat split; [lia| |].
      * constructor; auto.
        intros Hi; apply Hinc, filter_In in Hi as [_ Hi].
        rewrite Nat.eqb_refl in Hi; discriminate.
      * intros x [<-|Hx]; auto.
        apply Hinc, filter_In in Hx; tauto.
Qed.

(** A hook loop that applies [h] to the friend in each slot of [idx]. *)
Lemma filter_neq_length (l : list nat) i :
  NoDup l -> In i l -> length (filter (fun x => negb (x =? i)) l) = length l - 1.
Proof.
  induction l as [|x l IH]; intros Hnd Hin; [destruct Hin|].
  inversion Hnd as [|? ? Hx Hnd']; subst; simpl.
  destruct Hin as [<-|Hin].
  - rewrite Nat.eqb_refl; simpl.
    assert (E : filter (fun y => negb (y =? x)) l = l).
    { clear IH Hnd Hnd'; induction l as [|y l IHl]; simpl; auto.
      destruct (y =? x) eqn:Ey; simpl.
      - apply Nat.eqb_eq in Ey; subst; exfalso; apply Hx; left; reflexivity.
      - rewrite IHl; auto; intros H; apply Hx; right; exact H. }
    rewrite E; lia.
  - destruct (x =? i) eqn:Ex; simpl.
    + apply Nat.eqb_eq in Ex; subst; contradiction.
    + rewrite IH by auto; destruct l; [destruct Hin|]; simpl; lia.
Qed.

Lemma sample_distinct_length k pool idx :
  NoDup pool -> outcome (sample_distinct k pool) idx -> length idx = Nat.min k (length pool).
Proof.
  revert pool idx; induction k as [|k IH]; intros pool idx Hnd H; cbn [sample_distinct] in H.
  - apply outcome_ret_inv in H; subst; reflexivity.
  - destruct pool as [|p0 ps].
    + apply outcome_ret_inv in H; subst; reflexivity.
    + apply outcome_roll_inv in H as (r & Hr & H); cbn [bind] in H.
      apply outcome_bind_inv in H as (i & Hi & H).
      destruct (nth_error (p0 :: ps) r) as [i'|] eqn:Er; cbn [unwrap] in Hi;
        [|apply outcome_fail_inv in Hi; contradiction].
      apply outcome_ret_inv in Hi; subst i'.
      apply outcome_bind_inv in H as (rest & Hrest & H); apply outcome_ret_inv in H; subst idx.
      assert (Hin : In i (p0 :: ps)) by (eapply nth_error_In; eauto).
      apply IH in Hrest; [|apply NoDup_filter; exact Hnd].
      rewrite filter_neq_length in Hrest by auto.
      simpl in *; rewrite Hrest; lia.
Qed.

Lemma NoDup_occupied {A} (l : list (option A)) : NoDup (occupied l).
Proof. unfold occupied; apply NoDup_filter, seq_NoDup. Qed.

Definition update_loop (h : Friend -> Friend) (idx : list nat) (s : Shop) : prog Shop :=
  for_each idx (fun i s' =>
    slot <- get (team s') i ;;
    g <- unwrap slot ;;
    t <- set (team s') i (Some (h g)) ;;
    Ret (set_team s' t)) s.

Lemma update_loop_outcome h idx s s1 :
  NoDup idx -> outcome (update_loop h idx s) s1 ->
  gold s1 = gold s /\ shop_friends s1 = shop_friends s /\ shop_foods s1 = shop_foods s /\
  length (team s1) = length (team s) /\
  forall p, nth p (team s1) None =
            if in_dec Nat.eq_dec p idx then option_map h (nth p (team s) None)
            else nth p (team s) None.
Proof.
  unfold update_loop; revert s; induction idx as [|i idx IH]; intros s Hnd H; simpl in H.
  - apply outcome_ret_inv in H; subst; repeat split; auto.
  - inversion Hnd as [|? ? Hni Hnd']; subst.
    apply outcome_bind_inv in H as (st & Hst & H).
    apply IH in H as (H1 & H2 & H3 & H4 & H5); [|exact Hnd'].
    out_go; shop_red.
    match goal with
    | Eg : nth_error (team s) i = Some (Some ?g),
      Er : replace_nth (team s) i (Some (h ?g)) = Some ?t |- _ =>
      apply nth_error_nth_some in Eg; rename Eg into Egn;
      apply replace_nth_spec in Er as (_ & Hl & Hn & Ho)
    end.
    repeat split; try congruence.
    intros p; rewrite H5.
    destruct (in_dec Nat.eq_dec p idx) as [Hp|Hp];
      destruct (in_dec Nat.eq_dec p (i :: idx)) as [Hp'|Hp'].
    + rewrite Ho; auto; intros ->; contradiction.
    + exfalso; apply Hp'; right; exact Hp.
    + destruct Hp' as [<-|Hp']; [|contradiction].
      rewrite Hn, Egn; reflexivity.
    + rewrite Ho; auto; intros ->; apply Hp'; left; reflexivity.
Qed.

Lemma on_buy_effect s f s1 :
  outcome (on_buy s f) s1 ->
  gold s1 = gold s /\ shop_friends s1 = shop_friends s /\ shop_foods s1 = shop_foods s /\
  length (team s1) = length (team s) /\
  exists idx, length idx = (if species_eqb (species f) Otter then Nat.min 1 (length (occupied (team s))) else 0) /\
    incl idx (occupied (team s)) /\
    forall p, nth p (team s1) None =
              if in_dec Nat.eq_dec p idx then option_map buff (nth p (team s) None)
              else nth p (team s) None.
Proof.
  unfold on_buy; intros H.
  destruct (species f) eqn:Ef; cbn [species_eqb species_index Nat.eqb];
    try (apply outcome_ret_inv in H; subst; repeat split; auto;
         exists []; simpl; repeat split; auto; intros ? []).
  apply outcome_bind_inv in H as (idx & Hidx & H).
  pose proof (sample_distinct_length _ _ _ (NoDup_occupied _) Hidx) as Hl.
  apply sample_distinct_outcome in Hidx as (_ & Hnd & Hinc).
  apply (update_loop_outcome buff idx s s1 Hnd) in H as (H1 & H2 & H3 & H4 & H5).
  repeat split; auto; exists idx; auto.
Qed.

Lemma on_sell_effect s a s1 :
  outcome (on_sell s a) s1 ->
  match species a with
  | Beaver =>
    gold s1 = gold s /\ shop_friends s1 = shop_friends s /\ shop_foods s1 = shop_foods s /\
    length (team s1) = length (team s) /\
    exists idx, length idx = Nat.min 2 (length (occupied (team s))) /\ incl idx (occupied (team s)) /\
      forall p, nth p (team s1) None =
                if in_dec Nat.eq_dec p idx
                then option_map (add_health (level a)) (nth p (team s) None)
                else nth p (team s) None
  | Duck => s1 = set_shop_friends s (map (option_map (add_health (level a))) (shop_friends s))
  | Pig => s1 = set_gold s (gold s + level a)
  | _ => s1 = s
  end.
Proof.
  unfold on_sell; intros H.
  destruct (species a) eqn:Ea; try (apply outcome_ret_inv in H; subst; reflexivity).
  apply outcome_bind_inv in H as (idx & Hidx & H).
  pose proof (sample_distinct_length _ _ _ (NoDup_occupied _) Hidx) as Hl.
  apply sample_distinct_outcome in Hidx as (_ & Hnd & Hinc).
  apply (update_loop_outcome (add_health (level a)) idx s s1 Hnd) in H
    as (H1 & H2 & H3 & H4 & H5).
  - repeat split; auto; exists idx; auto.
  - out_go; reflexivity.
Qed.

Lemma sort_foods_count l : occupied_count (sort_foods l) = occupied_count l.
Proof.
  unfold occupied_count; symmetry; apply Permutation_filter_length.
  apply FoodSort.Permuted_sort.
Qed.

Lemma occupied_count_ext {A} (l1 l2 : list (option A)) :
  length l1 = length l2 ->
  (forall p, is_some (nth p l1 None) = is_some (nth p l2 None)) ->
  occupied_count l1 = occupied_count l2.
Proof.
  unfold occupied_count; revert l2; induction l1 as [|x l1 IH]; intros [|y l2] Hl Hp;
    simpl in *; try lia.
  pose proof (Hp 0) as H0; simpl in H0.
  assert (E : length (filter is_some l1) = length (filter is_some l2))
    by (apply IH; [lia | intros p; apply (Hp (S p))]).
  destruct x, y; simpl in *; congruence.
Qed.

Lemma is_some_option_map {A B} (f : A -> B) o : is_some (option_map f o) = is_some o.
Proof. destruct o; reflexivity. Qed.

(* ------------------------------------------------------------------ *)
(** ** Further properties of the shop *)



(** BuyFood: the food of an occupied shop slot is fed to an occupied team
    slot; only that slot changes, three gold are paid and one food leaves the
    shop. *)
Theorem buy_food_feeds_friend s s' :
  outcome (step_action BuyFood s) (false, s') ->
  exists i j food f,
    nth i (shop_foods s) None = Some food /\ nth j (team s) None = Some f /\
    nth j (team s') None = Some (feed food f) /\
    (forall p, p <> j -> nth p (team s') None = nth p (team s) None) /\
    3 <= gold s /\ gold s' = gold s - 3 /\ shop_friends s' = shop_friends s /\
    occupied_count (shop_foods s') + 1 = occupied_count (shop_foods s).
Proof.
  intros H; apply buy_food_action in H as (i & j & food & f & fo & Hg & Hi & Hj & Hfo & Ht & H1 & H2 & H3).
  exists i, j, food, f.
  assert (Hc : occupied_count fo + 1 = occupied_count (shop_foods s)).
  { assert (Hl := nth_some_lt _ _ _ Hi).
    pose proof (replace_nth_count _ _ _ _ _ (nth_error_nth' _ None Hl) Hfo) as C.
    rewrite Hi in C; simpl in C; lia. }
  apply replace_nth_spec in Ht as (_ & _ & Nj & Oj).
  repeat split; auto.
  rewrite H3, sort_foods_count; exact Hc.
Qed.

Definition duck_fed : Shop :=
  snd (result_of [0; 0] (step_action BuyFood shop_duck) (true, shop_duck)).

Lemma duck_fed_outcome : outcome (step_action BuyFood shop_duck) (false, duck_fed).
Proof. apply (exec_outcome [0; 0] _ _ []); vm_compute; reflexivity. Qed.

Lemma buy_food_feeds_friend_witness :
  exists i j food f,
    nth i (shop_foods shop_duck) None = Some food /\ nth j (team shop_duck) None = Some f /\
    nth j (team duck_fed) None = Some (feed food f) /\
    (forall p, p <> j -> nth p (team duck_fed) None = nth p (team shop_duck) None) /\
    3 <= gold shop_duck /\ gold duck_fed = gold shop_duck - 3 /\
    shop_friends duck_fed = shop_friends shop_duck /\
    occupied_count (shop_foods duck_fed) + 1 = occupied_count (shop_foods shop_duck).
Proof. exact (buy_food_feeds_friend _ _ duck_fed_outcome). Defined.

(** SellFriend: an occupied team slot is emptied, the seller's level is paid
    out (twice for a Pig), the team has one friend less and the foods are
    untouched. *)
Theorem sell_friend_frees_slot s s' :
  outcome (step_action SellFriend s) (false, s') ->
  exists j a, nth j (team s) None = Some a /\ nth j (team s') None = None /\
    gold s' = gold s + level a + (if species_eqb (species a) Pig then level a else 0) /\
    occupied_count (team s') + 1 = occupied_count (team s) /\
    length (team s') = length (team s) /\ shop_foods s' = shop_foods s.
Proof.
  intros H; apply sell_action in H as (j & a & t & Ha & Ht & Ho).
  exists j, a.
  assert (Hc : occupied_count t + 1 = occupied_count (team s)).
  { assert (Hl := nth_some_lt _ _ _ Ha).
    pose proof (replace_nth_count _ _ _ _ _ (nth_error_nth' _ None Hl) Ht) as C.
    rewrite Ha in C; simpl in C; lia. }
  apply replace_nth_spec in Ht as (_ & Hlen & Nj & _).
  apply on_sell_effect in Ho.
  destruct (species a) eqn:Es; cbn [species_eqb species_index Nat.eqb];
    try (subst s'; cbn [team gold shop_foods set_gold set_shop_friends];
         repeat split; auto; lia).
  destruct Ho as (H1 & H2 & H3 & H4 & idx & _ & _ & H5); cbn [team gold shop_foods] in *.
  split; [exact Ha|]; split.
  - rewrite H5, Nj; destruct (in_dec _ _ _); reflexivity.
  - repeat split; auto; try lia.
    rewrite <- Hc; f_equal; apply occupied_count_ext; [congruence|].
    intros p; rewrite H5; destruct (in_dec _ _ _); auto using is_some_option_map.
Qed.

Definition duck_sold : Shop :=
  snd (result_of [0] (step_action SellFriend shop_duck) (true, shop_duck)).

Lemma duck_sold_outcome : outcome (step_action SellFriend shop_duck) (false, duck_sold).
Proof. apply (exec_outcome [0] _ _ []); vm_compute; reflexivity. Qed.

Lemma sell_friend_frees_slot_witness :
  exists j a, nth j (team shop_duck) None = Some a /\ nth j (team duck_sold) None = None /\
    gold duck_sold = gold shop_duck + level a + (if species_eqb (species a) Pig then level a else 0) /\
    occupied_count (team duck_sold) + 1 = occupied_count (team shop_duck) /\
    length (team duck_sold) = length (team shop_duck) /\
    shop_foods duck_sold = shop_foods shop_duck.
Proof. exact (sell_friend_frees_slot _ _ duck_sold_outcome). Defined.

(** The on-sell hook of a Beaver gives [level] health to as many distinct
    occupied team slots as it can, up to two, and changes nothing else. *)
Theorem beaver_sell_buffs s a s1 :
  species a = Beaver -> outcome (on_sell s a) s1 ->
  gold s1 = gold s /\ shop_friends s1 = shop_friends s /\ shop_foods s1 = shop_foods s /\
  length (team s1) = length (team s) /\
  exists idx, NoDup idx /\ length idx = Nat.min 2 (length (occupied (team s))) /\
    incl idx (occupied (team s)) /\
    forall p, nth p (team s1) None =
              if in_dec Nat.eq_dec p idx
              then option_map (add_health (level a)) (nth p (team s) None)
              else nth p (team s) None.
Proof.
  intros Hs H; unfold on_sell in H; rewrite Hs in H.
  apply outcome_bind_inv in H as (idx & Hidx & H).
  pose proof (sample_distinct_length _ _ _ (NoDup_occupied _) Hidx) as Hl.
  apply sample_distinct_outcome in Hidx as (_ & Hnd & Hinc).
  apply (update_loop_outcome (add_health (level a)) idx s s1 Hnd) in H
    as (H1 & H2 & H3 & H4 & H5).
  repeat split; auto; exists idx; auto.
Qed.

Definition beaver1 : Friend := friend_new Beaver.

Definition shop_beaver_sold : Shop :=
  mkShop [None; Some (friend_new Ant); Some (friend_new Fish); None; None] 11
         [Some (friend_new Ant); Some (friend_new Fish); Some otter1] [Some Apple].

Definition beaver_buffed : Shop :=
  result_of [0; 0] (on_sell shop_beaver_sold beaver1) shop_beaver_sold.

Lemma beaver_buffed_outcome : outcome (on_sell shop_beaver_sold beaver1) beaver_buffed.
Proof. apply (exec_outcome [0; 0] _ _ []); vm_compute; reflexivity. Qed.

Lemma beaver_sell_buffs_witness :
  species beaver1 = Beaver /\
  gold beaver_buffed = gold shop_beaver_sold /\
  shop_friends beaver_buffed = shop_friends shop_beaver_sold /\
  shop_foods beaver_buffed = shop_foods shop_beaver_sold /\
  length (team beaver_buffed) = length (team shop_beaver_sold) /\
  exists idx, NoDup idx /\ length idx = Nat.min 2 (length (occupied (team shop_beaver_sold))) /\
    incl idx (occupied (team shop_beaver_sold)) /\
    forall p, nth p (team beaver_buffed) None =
              if in_dec Nat.eq_dec p idx
              then option_map (add_health (level beaver1)) (nth p (team shop_beaver_sold) None)
              else nth p (team shop_beaver_sold) None.
Proof.
  split; [reflexivity|].
  exact (beaver_sell_buffs shop_beaver_sold beaver1 _ eq_refl beaver_buffed_outcome).
Defined.

(** The on-buy hook of an Otter gives +1/+1 to one occupied team slot when
    there is one, and changes nothing else. *)
Theorem otter_buy_buffs s f s1 :
  species f = Otter -> outcome (on_buy s f) s1 ->
  gold s1 = gold s /\ shop_friends s1 = shop_friends s /\ shop_foods s1 = shop_foods s /\
  length (team s1) = length (team s) /\
  exists idx, length idx = Nat.min 1 (length (occupied (team s))) /\
    incl idx (occupied (team s)) /\
    forall p, nth p (team s1) None =
              if in_dec Nat.eq_dec p idx then option_map buff (nth p (team s) None)
              else nth p (team s) None.
Proof.
  intros Hs H; unfold on_buy in H; rewrite Hs in H.
  apply outcome_bind_inv in H as (idx & Hidx & H).
  pose proof (sample_distinct_length _ _ _ (NoDup_occupied _) Hidx) as Hl.
  apply sample_distinct_outcome in Hidx as (_ & Hnd & Hinc).
  apply (update_loop_outcome buff idx s s1 Hnd) in H as (H1 & H2 & H3 & H4 & H5).
  repeat split; auto; exists idx; auto.
Qed.

Definition duck_buffed : Shop := result_of [0] (on_buy shop_duck otter1) shop_duck.

Lemma duck_buffed_outcome : outcome (on_buy shop_duck otter1) duck_buffed.
Proof. apply (exec_outcome [0] _ _ []); vm_compute; reflexivity. Qed.

Lemma otter_buy_buffs_witness :
  species otter1 = Otter /\
  gold duck_buffed = gold shop_duck /\ shop_friends duck_buffed = shop_friends shop_duck /\
  shop_foods duck_buffed = shop_foods shop_duck /\
  length (team duck_buffed) = length (team shop_duck) /\
  exists idx, length idx = Nat.min 1 (length (occupied (team shop_duck))) /\
    incl idx (occupied (team shop_duck)) /\
    forall p, nth p (team duck_buffed) None =
              if in_dec Nat.eq_dec p idx then option_map buff (nth p (team shop_duck) None)
              else nth p (team shop_duck) None.
Proof.
  split; [reflexivity|].
  exact (otter_buy_buffs shop_duck otter1 _ eq_refl duck_buffed_outcome).
Defined.

(** Reroll in [step]: it needs gold and a missing offer or food; it costs
    one gold, keeps the team, and fills every offer with a default friend and
    every food slot, sorted. *)
Theorem reroll_refills_shop s s' :
  outcome (step_action Reroll s) (false, s') ->
  1 <= gold s /\ gold s' = gold s - 1 /\ team s' = team s /\
  (existsb (fun o => negb (is_some o)) (shop_foods s) ||
   existsb (fun o => negb (is_some o)) (shop_friends s)) = true /\
  length (shop_friends s') = length (shop_friends s) /\
  length (shop_foods s') = length (shop_foods s) /\
  Forall (fun o => exists sp, o = Some (friend_new sp)) (shop_friends s') /\
  Forall (fun o => is_some o = true) (shop_foods s') /\ shop_sorted s'.
Proof.
  intros H; apply reroll_action in H as (Hg & Hx & s1 & Hs1 & ->).
  apply (wps_outcome _ _ _ (reroll_np s)) in Hs1
    as (Ht & Hg1 & Hf & Hfo & Hall & Hfood & Hsort).
  cbn [set_gold team gold shop_friends shop_foods]; repeat split; auto; try lia.
  - apply Hsort.
  - apply Hsort.
Qed.

Definition shop_duck_hungry : Shop := set_shop_foods shop_duck [None].

Definition duck_rerolled : Shop :=
  snd (result_of [0; 0; 0; 0] (step_action Reroll shop_duck_hungry) (true, shop_duck_hungry)).

Lemma duck_rerolled_outcome : outcome (step_action Reroll shop_duck_hungry) (false, duck_rerolled).
Proof. apply (exec_outcome [0; 0; 0; 0] _ _ []); vm_compute; reflexivity. Qed.

Lemma reroll_refills_shop_witness :
  1 <= gold shop_duck_hungry /\ gold duck_rerolled = gold shop_duck_hungry - 1 /\
  team duck_rerolled = team shop_duck_hungry /\
  (existsb (fun o => negb (is_some o)) (shop_foods shop_duck_hungry) ||
   existsb (fun o => negb (is_some o)) (shop_friends shop_duck_hungry)) = true /\
  length (shop_friends duck_rerolled) = length (shop_friends shop_duck_hungry) /\
  length (shop_foods duck_rerolled) = length (shop_foods shop_duck_hungry) /\
  Forall (fun o => exists sp, o = Some (friend_new sp)) (shop_friends duck_rerolled) /\
  Forall (fun o => is_some o = true) (shop_foods duck_rerolled) /\ shop_sorted duck_rerolled.
Proof. exact (reroll_refills_shop _ _ duck_rerolled_outcome). Defined.

(** [Shop::new] never panics and gives an empty team, [DEFAULT_GOLD] gold,
    and full sorted offers of default friends and foods. *)
Theorem shop_new_fresh :
  wpe shop_new (fun _ => False)
    (fun s => team s = team_new /\ gold s = DEFAULT_GOLD /\
       length (shop_friends s) = SHOP_ANIMAL_COUNT /\ length (shop_foods s) = SHOP_FOOD_COUNT /\
       Forall (fun o => exists sp, o = Some (friend_new sp)) (shop_friends s) /\
       Forall (fun o => is_some o = true) (shop_foods s) /\ shop_sorted s).
Proof.
  unfold shop_new; apply wps_wpe; eapply wps_mono; [apply reroll_np|].
  cbn [team gold shop_friends shop_foods]; intros s (Ht & Hg & Hf & Hfo & H).
  rewrite repeat_length in Hf, Hfo.
  repeat split; auto; apply H.
Qed.














Lemma occupied_count_app {A} (l1 l2 : list (option A)) :
  occupied_count (l1 ++ l2) = occupied_count l1 + occupied_count l2.
Proof. unfold occupied_count; rewrite filter_app, length_app; reflexivity. Qed.

Lemma make_space_at_count t j t' :
  make_space_at t j = (true, t') -> occupied_count t' = occupied_count t.
Proof.
  unfold make_space_at, first_empty_from.
  destruct (find _ _) as [k|] eqn:Ef; intros H; [|discriminate].
  injection H as <-.
  apply find_some in Ef as [Hin Hk]; apply in_seq in Hin.
  destruct (nth k t None) eqn:Etk; [discriminate|]; clear Hk.
  set (A := firstn j t); set (B := firstn (k - j) (skipn j t)); set (C := skipn (S k) t).
  assert (LA : length A = j) by (unfold A; rewrite length_firstn; lia).
  assert (LB : length B = k - j) by (unfold B; rewrite length_firstn, length_skipn; lia).
  assert (LC : length C = length t - S k) by (unfold C; rewrite length_skipn; lia).
  assert (E1 : map (fun p => if p <? j then nth p t None
                             else if p =? j then None
                             else if p <=? k then nth (p - 1) t None
                             else nth p t None) (seq 0 (length t))
               = A ++ None :: B ++ C).
  { apply (nth_ext _ _ None None).
    - rewrite length_map, length_seq, length_app; simpl; rewrite length_app; lia.
    - intros p Hp; rewrite length_map, length_seq in Hp.
      rewrite (nth_indep _ None (Datatypes.id (fun p => if p <? j then nth p t None
                             else if p =? j then None
                             else if p <=? k then nth (p - 1) t None
                             else nth p t None) 0)) by (rewrite length_map, length_seq; lia).
      rewrite map_nth, seq_nth by lia; simpl.
      destruct (p <? j) eqn:E1.
      + apply Nat.ltb_lt in E1; rewrite app_nth1 by lia.
        unfold A; rewrite nth_firstn; apply Nat.ltb_lt in E1 as E1'; rewrite (proj2 (Nat.ltb_lt _ _) E1); reflexivity.
      + apply Nat.ltb_ge in E1; rewrite app_nth2 by lia; rewrite LA.
        destruct (p =? j) eqn:E2.
        * apply Nat.eqb_eq in E2; subst p; rewrite Nat.sub_diag; reflexivity.
        * apply Nat.eqb_neq in E2; replace (p - j) with (S (p - j - 1)) by lia; simpl.
          destruct (p <=? k) eqn:E3.
          -- apply Nat.leb_le in E3; rewrite app_nth1 by lia.
             unfold B; rewrite nth_firstn, nth_skipn.
             destruct (p - j - 1 <? k - j) eqn:E4; [|apply Nat.ltb_ge in E4; lia].
             f_equal; lia.
          -- apply Nat.leb_gt in E3; rewrite app_nth2 by lia; rewrite LB.
             unfold C; rewrite nth_skipn; f_equal; lia. }
  rewrite E1.
  assert (E2 : t = A ++ B ++ None :: C).
  { unfold A, B, C.
    rewrite <- (firstn_skipn j t) at 1; f_equal.
    rewrite <- (firstn_skipn (k - j) (skipn j t)) at 1; f_equal.
    rewrite skipn_skipn.
    replace (k - j + j) with k by lia.
    rewrite <- Etk; clear -Hin.
    assert (Hk : k < length t) by lia; clear Hin; revert t Hk; induction k as [|k IH];
      intros [|x t] Hk; simpl in *; try lia; auto.
    apply IH; lia. }
  rewrite E2 at 1.
  change (None :: B ++ C) with ([None] ++ B ++ C); change (None :: C) with ([None] ++ C).
  rewrite !occupied_count_app.
  assert (Z : occupied_count (@None Friend :: nil) = 0) by reflexivity; lia.
Qed.

(** BuyFriend: an offer is moved into the team, three gold are paid, the
    team gains exactly one friend, the shop loses one offer and the foods are
    untouched. *)
Theorem buy_friend_adds_one s s' :
  outcome (step_action BuyFriend s) (false, s') ->
  exists i j a, nth i (shop_friends s) None = Some a /\ 3 <= gold s /\
    nth j (team s') None = Some a /\ gold s' = gold s - 3 /\
    occupied_count (team s') = occupied_count (team s) + 1 /\
    occupied_count (shop_friends s') + 1 = occupied_count (shop_friends s) /\
    shop_foods s' = shop_foods s.
Proof.
  intros H; apply buy_friend_action in H
    as (i & j & a & t1 & sf & s_hook & Hj & Ha & Hmk & Ht1 & Hg & Hsf & Hhook & Ht & G & F & Fo).
  exists i, j, a.
  apply on_buy_effect in Hhook as (G1 & F1 & Fo1 & L1 & idx & _ & _ & N1).
  cbn [gold shop_friends shop_foods team] in G1, F1, Fo1, L1, N1.
  assert (Hl : j < length (team s_hook)) by (rewrite L1; apply nth_error_Some; congruence).
  assert (Hs : nth j (team s_hook) None = None).
  { apply (nth_error_nth _ _ None) in Ht1; rewrite N1, Ht1; destruct (in_dec _ _ _); reflexivity. }
  pose proof (replace_nth_count _ _ _ _ _ (nth_error_nth' _ None Hl) Ht) as C1.
  rewrite Hs in C1; cbn [is_some] in C1.
  assert (C2 : occupied_count (team s_hook) = occupied_count t1).
  { apply occupied_count_ext; [congruence|].
    intros p; rewrite N1; destruct (in_dec _ _ _); auto using is_some_option_map. }
  rewrite (make_space_at_count _ _ _ Hmk) in C2.
  assert (Hli := nth_some_lt _ _ _ Ha).
  pose proof (replace_nth_count _ _ _ _ _ (nth_error_nth' _ None Hli) Hsf) as C3.
  rewrite Ha in C3; cbn [is_some] in C3.
  apply replace_nth_spec in Ht as (_ & _ & Nj & _).
  repeat split; auto; try lia.
  - rewrite F, F1, sort_friends_count; lia.
  - congruence.
Qed.

Definition duck_bought : Shop :=
  snd (result_of [0; 1] (step_action BuyFriend shop_duck) (true, shop_duck)).

Lemma duck_bought_outcome : outcome (step_action BuyFriend shop_duck) (false, duck_bought).
Proof. apply (exec_outcome [0; 1] _ _ []); vm_compute; reflexivity. Qed.

Lemma buy_friend_adds_one_witness :
  exists i j a, nth i (shop_friends shop_duck) None = Some a /\ 3 <= gold shop_duck /\
    nth j (team duck_bought) None = Some a /\ gold duck_bought = gold shop_duck - 3 /\
    occupied_count (team duck_bought) = occupied_count (team shop_duck) + 1 /\
    occupied_count (shop_friends duck_bought) + 1 = occupied_count (shop_friends shop_duck) /\
    shop_foods duck_bought = shop_foods shop_duck.
Proof. exact (buy_friend_adds_one _ _ duck_bought_outcome). Defined.

Lemma level_pos f : 1 <= level f.
Proof. unfold level; destruct (exp f <? 2), (exp f <? 5); lia. Qed.

(** The gold of a step that continues the round: buys cost three, a reroll
    costs one, combining is free and selling always earns gold. *)
Theorem step_gold_change act s s' :
  outcome (step_action act s) (false, s') ->
  match act with
  | BuyFriend | BuyFood | BuyCombineFriend => 3 <= gold s /\ gold s' = gold s - 3
  | Reroll => 1 <= gold s /\ gold s' = gold s - 1
  | CombineFriends => gold s' = gold s
  | SellFriend => gold s < gold s'
  end.
Proof.
  destruct act; intros H.
  - apply buy_friend_action in H
      as (i & j & a & t1 & sf & s_hook & _ & _ & _ & _ & Hg & _ & Hhook & _ & G & _).
    apply on_buy_effect in Hhook as (G1 & _); cbn [gold] in G1; lia.
  - apply buy_combine_action in H
      as (i & j & a & b & sf & t1 & s_hook & _ & _ & _ & _ & _ & Hg & _ & _ & Hhook & _ & G & _).
    apply on_buy_effect in Hhook as (G1 & _); cbn [gold] in G1; lia.
  - apply sell_action in H as (j & a & t & _ & _ & Ho).
    apply on_sell_effect in Ho; pose proof (level_pos a).
    destruct (species a); try (subst s'; cbn [gold set_gold set_shop_friends]; lia).
    destruct Ho as (G & _); cbn [gold] in G; lia.
  - apply buy_food_action in H as (i & j & food & f & fo & Hg & _ & _ & _ & _ & G & _); lia.
  - apply combine_friends_action in H as (i & j & a & b & _ & _ & _ & _ & _ & _ & _ & _ & _ & _ & _ & G & _).
    exact G.
  - apply reroll_action in H as (Hg & _ & s1 & Hs1 & ->).
    apply (wps_outcome _ _ _ (reroll_np s)) in Hs1 as (_ & G & _).
    cbn [gold set_gold]; lia.
Qed.

Lemma step_gold_change_witness :
  3 <= gold shop_duck /\ gold duck_fed = gold shop_duck - 3.
Proof. exact (step_gold_change BuyFood _ _ duck_fed_outcome). Defined.
